(** * A shallow embedding of the JKDev deterministic Turing machine simulator

    Source: [src/TuringMachine.py].  The Python classes become records, the
    mutable machine object becomes an explicit state that every operation
    takes and returns, and a raised exception becomes a [Raise] result that
    still carries the machine as the exception left it. *)

From Stdlib Require Import ZArith Lia.
From stdpp Require Import base decidable option list strings.

Local Open Scope Z_scope.

(** ** Exceptions and results *)

(** [TMError] is the module's own exception class; [IndexError] and
    [AttributeError] are the interpreter's, raised by an out-of-range
    subscript and by an attribute access on [None]. *)
Inductive exn :=
  | TMError (msg : string)
  | IndexError
  | AttributeError.

Inductive result (A : Type) :=
  | Ok (a : A)
  | Raise (e : exn).
Arguments Ok {A} a.
Arguments Raise {A} e.

(** The messages of the module (lines 109, 111, 119, 121, 138, 166 and
    172). *)
Definition MSG_ONE_START : string := "There must be exactly one start state.".
Definition MSG_A_START : string := "There must be a start state.".
Definition MSG_ACCEPTING : string := "There must be at least one accepting state.".
Definition MSG_REJECTING : string := "There must be at least one rejecting state.".
Definition MSG_MISSING : string :=
  "Invalid: Cannot Perform Process Tape input due to missing transitions. Please ensure deterministic TMs are used.".
Definition MSG_NO_TRANSITION : string :=
  "Invalid: No possible transition was found. Please ensure deterministic TMs are used.".
Definition MSG_NO_STATE : string :=
  "Invalid: Transition to a non-existent state. Please ensure deterministic TMs are used.".

(** ** Python list primitives used by the machine *)

Section PyList.
Context {A : Type}.

(** A subscript [i] of a list of length [n]: non-negative subscripts count
    from the front, negative ones from the back, anything else is out of
    range. *)
Definition py_index (n : nat) (i : Z) : option nat :=
  if decide (0 ≤ i < Z.of_nat n) then Some (Z.to_nat i)
  else if decide (- Z.of_nat n ≤ i < 0) then Some (Z.to_nat (Z.of_nat n + i))
  else None.

(** [l[i]] *)
Definition py_getitem (l : list A) (i : Z) : result A :=
  match py_index (length l) i with
  | Some k => match l !! k with Some x => Ok x | None => Raise IndexError end
  | None => Raise IndexError
  end.

(** [l[i] = x] *)
Definition py_setitem (l : list A) (i : Z) (x : A) : result (list A) :=
  match py_index (length l) i with
  | Some k => Ok (<[k:=x]> l)
  | None => Raise IndexError
  end.

(** [l.append(x)] *)
Definition py_append (l : list A) (x : A) : list A := l ++ [x].

(** [l.insert(0, x)] *)
Definition py_insert0 (l : list A) (x : A) : list A := x :: l.
End PyList.

(** ** Data model *)

Inductive TMDirection := LEFT | RIGHT.

Inductive TMStateType := START | ACCEPTING | REJECTING | NORMAL.

Global Instance TMDirection_eq_dec : EqDecision TMDirection.
Proof. solve_decision. Defined.

Global Instance TMStateType_eq_dec : EqDecision TMStateType.
Proof. solve_decision. Defined.

(** Tape symbols are Python strings. *)
Definition Symbol := string.

(** [TMTransition].  The Python object also keeps [state], a reference back
    to the state that owns it; nothing in the machine reads it, and the
    owner is the state whose [transitions] list holds the record. *)
Record TMTransition := mkTransition {
  symbol : Symbol;
  new_state : string;
  new_symbol : Symbol;
  direction : TMDirection
}.

Record TMState := mkState {
  name : string;
  state_type : TMStateType;
  transitions : list TMTransition
}.

(** [TMState.__init__]: a fresh state has no transitions; the kind defaults
    to [NORMAL]. *)
Definition new_TMState (n : string) (k : TMStateType) : TMState :=
  mkState n k [].

(** [TMState.add_transition]: append, and hand back the state itself. *)
Definition add_transition (s : TMState) (sym : Symbol) (target : string)
    (wr : Symbol) (d : TMDirection) : TMState :=
  mkState (name s) (state_type s)
          (py_append (transitions s) (mkTransition sym target wr d)).

(** The machine object.  [current_state] is [None] for Python's [None];
    [head_pos] is a Python integer. *)
Record TM := mkTM {
  empty_symbol : Symbol;
  tape : list Symbol;
  states : list TMState;
  implicit_reject : bool;
  head_pos : Z;
  current_state : option TMState;
  accepting_states : list TMState;
  rejecting_states : list TMState
}.

Definition set_tape (m : TM) (t : list Symbol) : TM :=
  mkTM (empty_symbol m) t (states m) (implicit_reject m) (head_pos m)
       (current_state m) (accepting_states m) (rejecting_states m).

Definition set_head_pos (m : TM) (h : Z) : TM :=
  mkTM (empty_symbol m) (tape m) (states m) (implicit_reject m) h
       (current_state m) (accepting_states m) (rejecting_states m).

Definition set_current_state (m : TM) (s : option TMState) : TM :=
  mkTM (empty_symbol m) (tape m) (states m) (implicit_reject m) (head_pos m)
       s (accepting_states m) (rejecting_states m).

(** ** Construction: [TM.__init__] *)

(** [[s for s in states if s.state_type == k]] *)
Definition states_of_type (k : TMStateType) (sts : list TMState) : list TMState :=
  filter (λ s, state_type s = k) sts.

(** The constructor either raises, and then no machine exists, or returns
    the machine.  The attribute assignments of lines 101-105 come first but
    are only observable on success. *)
Definition init (sts : list TMState) (tp : list Symbol) (empty : Symbol)
    (implicit : bool) : result TM :=
  let start := states_of_type START sts in
  if decide (length start ≠ 1%nat) then Raise (TMError MSG_ONE_START)
  else if decide (length start = 0%nat) then Raise (TMError MSG_A_START)
  else
    let acc := states_of_type ACCEPTING sts in
    let rej := states_of_type REJECTING sts in
    if decide (length acc = 0%nat) then Raise (TMError MSG_ACCEPTING)
    else if negb implicit && bool_decide (length rej = 0%nat)
    then Raise (TMError MSG_REJECTING)
    else Ok (mkTM empty tp sts implicit 0 (head start) acc rej).

(** ** One transition: [TM.step] *)

(** Line 162: [if self.head_pos >= len(self.tape): self.tape.append(...)]. *)
Definition extend (m : TM) : TM :=
  if decide (Z.of_nat (length (tape m)) ≤ head_pos m)
  then set_tape m (py_append (tape m) (empty_symbol m))
  else m.

(** Line 164: the comprehension
    [[t for t in ts if t.symbol == self.tape[self.head_pos]]].  The
    subscript is evaluated once per element, so it is never evaluated, and
    cannot raise, when the state has no transition. *)
Fixpoint matching (ts : list TMTransition) (tp : list Symbol) (h : Z)
    : result (list TMTransition) :=
  match ts with
  | [] => Ok []
  | t :: rest =>
      match py_getitem tp h with
      | Raise e => Raise e
      | Ok c =>
          match matching rest tp h with
          | Raise e => Raise e
          | Ok keep => Ok (if decide (symbol t = c) then t :: keep else keep)
          end
      end
  end.

(** Line 170: [[s for s in self.states if s.name == target]]. *)
Definition states_named (target : string) (sts : list TMState) : list TMState :=
  filter (λ s, name s = target) sts.

(** Lines 176-183: the head movement, on the machine that already holds the
    written tape and the new current state. *)
Definition move (m : TM) (d : TMDirection) : TM :=
  if decide (head_pos m = 0 ∧ d = LEFT)
  then set_tape m (py_insert0 (tape m) (empty_symbol m))
  else if decide (d = LEFT) then set_head_pos m (head_pos m - 1)
  else set_head_pos m (head_pos m + 1).

(** [step] returns what the call did, [Ok tt] for a normal return, together
    with the machine as the call left it. *)
Definition step (m : TM) : result unit * TM :=
  let m1 := extend m in
  match current_state m1 with
  | None => (Raise AttributeError, m1)
  | Some s =>
      match matching (transitions s) (tape m1) (head_pos m1) with
      | Raise e => (Raise e, m1)
      | Ok [t] =>
          match py_setitem (tape m1) (head_pos m1) (new_symbol t) with
          | Raise e => (Raise e, m1)
          | Ok written =>
              let m2 := set_tape m1 written in
              match states_named (new_state t) (states m2) with
              | [s'] => (Ok tt, move (set_current_state m2 (Some s')) (direction t))
              | _ => (Raise (TMError MSG_NO_STATE), m2)
              end
          end
      | Ok _ => (Raise (TMError MSG_NO_TRANSITION), m1)
      end
  end.

(** ** The halting loop: [TM.run] *)

(** What [_config_repr] formats into its line of text: the tape, the head
    position and the name of the current state.  The text is a function of
    these three values; reading the name of a [None] current state raises. *)
Record Config := mkConfig {
  cfg_tape : list Symbol;
  cfg_head_pos : Z;
  cfg_state_name : string
}.

Definition _config_repr (m : TM) : result Config :=
  match current_state m with
  | None => Raise AttributeError
  | Some s => Ok (mkConfig (tape m) (head_pos m) (name s))
  end.

(** The value a call of [run] produces: [Some true] and [Some false] for
    Python's [True] and [False], [None] for the [None] of a function that
    falls off its end. *)
Definition RunValue := option bool.

(** Lines 134-135: [if verbose: print(self._config_repr())]. *)
Definition trace_line (verbose : bool) (m : TM) : result (list Config) :=
  if verbose then
    match _config_repr m with
    | Ok c => Ok [c]
    | Raise e => Raise e
    end
  else Ok [].

(** The body of the [for] loop, iterated [iters] times.  The result comes
    with the machine as the call left it and with the lines printed, oldest
    first.  [show_progress] only wraps the range in a progress bar and is
    left out. *)
Fixpoint run_loop (verbose : bool) (iters : nat) (m : TM)
    : result RunValue * TM * list Config :=
  match iters with
  | O => (Ok None, m, [])
  | S iters' =>
      match trace_line verbose m with
      | Raise e => (Raise e, m, [])
      | Ok printed =>
          if negb (implicit_reject m) && bool_decide (current_state m = None)
          then (Raise (TMError MSG_MISSING), m, printed)
          else
            match current_state m with
            | None => (Ok (Some false), m, printed)
            | Some s =>
                if decide (state_type s = ACCEPTING)
                then (Ok (Some true), m, printed)
                else if decide (state_type s = REJECTING)
                then (Ok (Some false), m, printed)
                else
                  match step m with
                  | (Raise e, m') => (Raise e, m', printed)
                  | (Ok _, m') =>
                      let '(r, m'', later) := run_loop verbose iters' m' in
                      (r, m'', printed ++ later)
                  end
            end
      end
  end.

(** [range(max_steps)] is empty for a negative [max_steps]. *)
Definition run (max_steps : Z) (verbose : bool) (m : TM)
    : result RunValue * TM * list Config :=
  run_loop verbose (Z.to_nat max_steps) m.

Definition run_result (max_steps : Z) (verbose : bool) (m : TM) : result RunValue :=
  (run max_steps verbose m).1.1.

Definition run_machine (max_steps : Z) (verbose : bool) (m : TM) : TM :=
  (run max_steps verbose m).1.2.

(** ** The machines of the test suite and of the example script *)

Module Tests.

Definition S_plain := new_TMState "S" START.
Definition A := new_TMState "A" ACCEPTING.
Definition R := new_TMState "R" REJECTING.

(** [test_run_accept_and_reject] *)
Definition S_to_A := add_transition S_plain "_" "A" "_" RIGHT.
Definition S2_to_R := add_transition (new_TMState "S2" START) "_" "R" "_" RIGHT.
(** [test_multiple_transitions_error] *)
Definition S_twice := add_transition S_to_A "_" "R" "_" RIGHT.
(** [test_transition_to_nonexistent_state_error] *)
Definition S_to_X := add_transition S_plain "_" "X" "_" RIGHT.
(** [test_tape_extension_and_right_movement] *)
Definition S_write_1 := add_transition S_plain "_" "A" "1" RIGHT.
(** [test_left_insertion_at_start] *)
Definition S_left_0 := add_transition S_plain "_" "S" "0" LEFT.
(** [test_head_movement_left_nonzero] *)
Definition S_left_x := add_transition S_plain "x" "S" "y" LEFT.

(** A start state that walks right over [x] and turns back on the blank. *)
Definition S_bounce :=
  add_transition (add_transition S_plain "x" "S" "x" RIGHT) "_" "S" "0" LEFT.

(** [TM([s, A, R], tape, empty_symbol='_')], on a constructor that
    succeeds; [default] stands for the machine that does not exist when
    it raises. *)
Definition default : TM := mkTM "_" [] [] false 0 None [] [].

Definition machine (s : TMState) (tp : list Symbol) : TM :=
  match init [s; A; R] tp "_" false with
  | Ok m => m
  | Raise _ => default
  end.

(** The machine of [Example.py]. *)
Definition example_states : list TMState :=
  [ add_transition (new_TMState "start" START) "a" "one_a" "a" RIGHT;
    add_transition (new_TMState "one_a" NORMAL) "b" "one_b" "b" RIGHT;
    add_transition
      (add_transition (new_TMState "one_b" NORMAL) "a" "one_b" "a" RIGHT)
      "_" "accept" "_" RIGHT;
    new_TMState "accept" ACCEPTING ].

(** [TM([S, A], [], implicit_reject=True)]: the machine of
    [test_no_transitions_raises_error] with implicit reject switched on, which
    lets it do without a rejecting state. *)
Definition no_transition_machine : TM :=
  match init [S_plain; A] [] "_" true with
  | Ok m => m
  | Raise _ => default
  end.

Definition example_machine (tp : list Symbol) : TM :=
  match init example_states tp "_" true with
  | Ok m => m
  | Raise _ => default
  end.

End Tests.

(** ** Vocabulary of the properties *)

(** A halting state is one of kind [ACCEPTING] or [REJECTING]. *)
Definition halting (s : TMState) : bool :=
  bool_decide (state_type s = ACCEPTING ∨ state_type s = REJECTING).

(** [after k m] is the machine once the loop of [run] has gone through [k]
    full iterations from [m]: each of them found a current state that is not
    halting and made a step that returned normally.  It is [None] when the
    loop leaves earlier, by a result or by an exception. *)
Fixpoint after (k : nat) (m : TM) : option TM :=
  match k with
  | O => Some m
  | S k' =>
      match current_state m with
      | None => None
      | Some s =>
          if halting s then None
          else match step m with
               | (Ok _, m') => after k' m'
               | (Raise _, _) => None
               end
      end
  end.

(** The kind of the current state, when there is one. *)
Definition current_type (m : TM) : option TMStateType :=
  option_map state_type (current_state m).

(** [head_in_bounds m]: [0 <= head_pos <= len(tape)]. *)
Definition head_in_bounds (m : TM) : Prop :=
  0 ≤ head_pos m ≤ Z.of_nat (length (tape m)).

(** The symbol that line 164 reads, on the tape as line 162 left it. *)
Definition read_symbol (m : TM) : result Symbol :=
  py_getitem (tape (extend m)) (head_pos m).

(** The transitions of [s] triggered by the symbol [c]. *)
Definition triggered (s : TMState) (c : Symbol) : list TMTransition :=
  filter (λ t, symbol t = c) (transitions s).

(** [current_in_states m]: the current state is not [None] and is one of
    the machine's states. *)
Definition current_in_states (m : TM) : Prop :=
  ∃ s, current_state m = Some s ∧ s ∈ states m.

(** The outcomes of [step], one constructor per way out of the function:
    the attribute access on a [None] current state, the subscript of the
    comprehension, the test of line 165, the test of line 171, and the three
    normal returns. *)
Inductive step_case (m : TM) : result unit * TM → Prop :=
  | case_no_state :
      current_state m = None →
      step_case m (Raise AttributeError, extend m)
  | case_bad_index s e :
      current_state m = Some s →
      transitions s ≠ [] →
      read_symbol m = Raise e →
      step_case m (Raise e, extend m)
  | case_no_transition s :
      current_state m = Some s →
      (transitions s = [] ∨ ∃ c, read_symbol m = Ok c ∧ length (triggered s c) ≠ 1%nat) →
      step_case m (Raise (TMError MSG_NO_TRANSITION), extend m)
  | case_no_target s c t k :
      current_state m = Some s →
      read_symbol m = Ok c →
      triggered s c = [t] →
      py_index (length (tape (extend m))) (head_pos m) = Some k →
      length (states_named (new_state t) (states m)) ≠ 1%nat →
      step_case m (Raise (TMError MSG_NO_STATE),
                   set_tape (extend m) (<[k:=new_symbol t]> (tape (extend m))))
  | case_moved s c t k s' :
      current_state m = Some s →
      read_symbol m = Ok c →
      triggered s c = [t] →
      py_index (length (tape (extend m))) (head_pos m) = Some k →
      states_named (new_state t) (states m) = [s'] →
      step_case m (Ok tt,
                   move (set_current_state
                           (set_tape (extend m) (<[k:=new_symbol t]> (tape (extend m))))
                           (Some s'))
                        (direction t)).

(** Machines driven through the constructor, [step] and [run] only: no
    attribute is assigned from outside. *)
Inductive driven : TM → Prop :=
  | driven_init sts tp e ir m :
      init sts tp e ir = Ok m → driven m
  | driven_step m :
      driven m → driven (step m).2
  | driven_run max_steps verbose m :
      driven m → driven (run_machine max_steps verbose m).

(** ** Printing: [__str__] and [__repr__] *)

(** [Enum.name] of the two enumerations. *)
Definition TMDirection_name (d : TMDirection) : string :=
  match d with
  | LEFT => "LEFT"
  | RIGHT => "RIGHT"
  end.

Definition TMStateType_name (k : TMStateType) : string :=
  match k with
  | START => "START"
  | ACCEPTING => "ACCEPTING"
  | REJECTING => "REJECTING"
  | NORMAL => "NORMAL"
  end.

(** [Enum.value]: [LEFT = -1], [RIGHT = 1]; [START = 0] to [NORMAL = 3]. *)
Definition TMDirection_value (d : TMDirection) : Z :=
  match d with
  | LEFT => -1
  | RIGHT => 1
  end.

Definition TMStateType_value (k : TMStateType) : Z :=
  match k with
  | START => 0
  | ACCEPTING => 1
  | REJECTING => 2
  | NORMAL => 3
  end.

(** [TMDirection.__str__] and [TMDirection.__repr__] *)
Definition TMDirection_str (d : TMDirection) : string := TMDirection_name d.
Definition TMDirection_repr (d : TMDirection) : string :=
  "TMDirection." +:+ TMDirection_name d.

(** [TMStateType.__str__] and [TMStateType.__repr__] *)
Definition TMStateType_str (k : TMStateType) : string := TMStateType_name k.
Definition TMStateType_repr (k : TMStateType) : string :=
  "TMStateType." +:+ TMStateType_name k.

(** [TMState.__str__] and [TMState.__repr__]; the format fields of the
    f-string go through [__str__]. *)
Definition TMState_str (s : TMState) : string := name s.
Definition TMState_repr (s : TMState) : string :=
  "TMState(name=" +:+ name s +:+ ", type=" +:+ TMStateType_str (state_type s) +:+ ")".

(** ** Further vocabulary *)

(** What the constructor checks and records, as a property of a machine:
    one start state, the accepting and rejecting states filed under their
    attributes, an accepting state, and a rejecting state unless
    [implicit_reject] is on. *)
Definition well_formed (m : TM) : Prop :=
  length (states_of_type START (states m)) = 1%nat
  ∧ accepting_states m = states_of_type ACCEPTING (states m)
  ∧ rejecting_states m = states_of_type REJECTING (states m)
  ∧ accepting_states m ≠ []
  ∧ (implicit_reject m = false → rejecting_states m ≠ []).

(** The attributes that only the constructor assigns. *)
Definition same_setup (m m' : TM) : Prop :=
  states m' = states m
  ∧ empty_symbol m' = empty_symbol m
  ∧ implicit_reject m' = implicit_reject m
  ∧ accepting_states m' = accepting_states m
  ∧ rejecting_states m' = rejecting_states m.

(** The exceptions that [step] raises by its own [raise] statements. *)
Definition step_error (e : exn) : Prop :=
  e = TMError MSG_NO_TRANSITION ∨ e = TMError MSG_NO_STATE.

(** The tapes [a b a^n] of the example script's machine. *)
Definition aba_tape (n : nat) : list Symbol := "a" :: "b" :: replicate n "a".

(** The four states of the example script, by name, and its machine in the
    middle of a run: on tape [tp], with the head at [h], in state [s]. *)
Definition ex_start : TMState :=
  add_transition (new_TMState "start" START) "a" "one_a" "a" RIGHT.
Definition ex_one_a : TMState :=
  add_transition (new_TMState "one_a" NORMAL) "b" "one_b" "b" RIGHT.
Definition ex_one_b : TMState :=
  add_transition
    (add_transition (new_TMState "one_b" NORMAL) "a" "one_b" "a" RIGHT)
    "_" "accept" "_" RIGHT.
Definition ex_accept : TMState := new_TMState "accept" ACCEPTING.

Definition example_at (tp : list Symbol) (h : Z) (s : TMState) : TM :=
  mkTM "_" tp Tests.example_states true h (Some s) [ex_accept] [].

(** The assertions of [tests/test_tm.py], replayed on the embedding. *)

Example test_init_errors_missing_states :
  init [] [] "_" false = Raise (TMError MSG_ONE_START)
  ∧ init [Tests.A; Tests.R] [] "_" false = Raise (TMError MSG_ONE_START)
  ∧ init [Tests.S_plain; Tests.R] [] "_" false = Raise (TMError MSG_ACCEPTING)
  ∧ init [Tests.S_plain; Tests.A] [] "_" false = Raise (TMError MSG_REJECTING).
Proof. repeat split; reflexivity. Qed.

Example test_config_repr :
  ∃ m, init [Tests.S_plain; Tests.A; Tests.R] ["0"] "0" false = Ok m
       ∧ _config_repr m = Ok (mkConfig ["0"] 0 "S").
Proof. eexists. split; reflexivity. Qed.

Example test_run_accept_and_reject :
  run_result 1000 false (Tests.machine Tests.S_to_A []) = Ok (Some true)
  ∧ run_result 1000 false (Tests.machine Tests.S2_to_R []) = Ok (Some false).
Proof. split; vm_compute; reflexivity. Qed.

Example test_no_transitions_raises_error :
  run_result 1000 false (Tests.machine Tests.S_plain [])
  = Raise (TMError MSG_NO_TRANSITION).
Proof. vm_compute; reflexivity. Qed.

Example test_multiple_transitions_error :
  (step (Tests.machine Tests.S_twice [])).1 = Raise (TMError MSG_NO_TRANSITION).
Proof. vm_compute; reflexivity. Qed.

Example test_transition_to_nonexistent_state_error :
  (step (Tests.machine Tests.S_to_X [])).1 = Raise (TMError MSG_NO_STATE).
Proof. vm_compute; reflexivity. Qed.

Example test_tape_extension_and_right_movement :
  let r := run 1000 false (Tests.machine Tests.S_write_1 []) in
  r.1.1 = Ok (Some true) ∧ tape r.1.2 = ["1"] ∧ head_pos r.1.2 = 1.
Proof. vm_compute; repeat split; reflexivity. Qed.

Example test_left_insertion_at_start :
  let r := step (Tests.machine Tests.S_left_0 []) in
  r.1 = Ok tt ∧ tape r.2 = ["_"; "0"] ∧ head_pos r.2 = 0.
Proof. vm_compute; repeat split; reflexivity. Qed.

Example test_head_movement_left_nonzero :
  let r := step (set_head_pos (Tests.machine Tests.S_left_x ["x"; "x"]) 1) in
  r.1 = Ok tt ∧ tape r.2 = ["x"; "y"] ∧ head_pos r.2 = 0.
Proof. vm_compute; repeat split; reflexivity. Qed.

Example example_script :
  let r := run 1000 true (Tests.example_machine ["a"; "b"; "a"]) in
  r.1.1 = Ok (Some true)
  ∧ option_map name (current_state r.1.2) = Some "accept"
  ∧ map cfg_state_name r.2 = ["start"; "one_a"; "one_b"; "one_b"; "accept"].
Proof. vm_compute; repeat split; reflexivity. Qed.

(** ** Subscripts *)

Lemma py_index_lt (n : nat) (i : Z) (k : nat) :
  py_index n i = Some k → (k < n)%nat.
Proof.
  unfold py_index. intros H.
  repeat case_decide; inversion H; subst; lia.
Qed.

Lemma py_index_front (n : nat) (i : Z) :
  0 ≤ i < Z.of_nat n → py_index n i = Some (Z.to_nat i).
Proof. intros H. unfold py_index. rewrite decide_True by exact H. reflexivity. Qed.

Lemma py_index_beyond (n : nat) (i : Z) :
  Z.of_nat n ≤ i → py_index n i = None.
Proof.
  intros H. unfold py_index.
  rewrite decide_False by lia. rewrite decide_False by lia. reflexivity.
Qed.

Lemma py_getitem_Ok {A} (l : list A) (i : Z) (x : A) :
  py_getitem l i = Ok x ↔ ∃ k, py_index (length l) i = Some k ∧ l !! k = Some x.
Proof.
  unfold py_getitem. split.
  - destruct (py_index (length l) i) as [k|] eqn:Hk; [|discriminate].
    destruct (l !! k) as [y|] eqn:Hy; [|discriminate].
    intros [= ->]. eauto.
  - intros (k & -> & ->). reflexivity.
Qed.

Lemma py_getitem_Raise {A} (l : list A) (i : Z) (e : exn) :
  py_getitem l i = Raise e → e = IndexError ∧ py_index (length l) i = None.
Proof.
  unfold py_getitem.
  destruct (py_index (length l) i) as [k|] eqn:Hk.
  - destruct (lookup_lt_is_Some_2 l k (py_index_lt _ _ _ Hk)) as [x ->].
    discriminate.
  - intros [= <-]. split; reflexivity.
Qed.

(** ** The comprehension of line 164 *)

Lemma matching_Ok (ts : list TMTransition) (tp : list Symbol) (h : Z) (c : Symbol) :
  py_getitem tp h = Ok c →
  matching ts tp h = Ok (filter (λ t, symbol t = c) ts).
Proof.
  intros Hc. induction ts as [|t rest IH]; simpl; [reflexivity|].
  rewrite Hc, IH. rewrite filter_cons. reflexivity.
Qed.

Lemma matching_Raise (ts : list TMTransition) (tp : list Symbol) (h : Z) (e : exn) :
  ts ≠ [] → py_getitem tp h = Raise e → matching ts tp h = Raise e.
Proof. destruct ts as [|t rest]; [congruence|]. intros _ He. simpl. rewrite He. reflexivity. Qed.

(** ** Line 162 *)

Lemma extend_fields (m : TM) :
  head_pos (extend m) = head_pos m
  ∧ states (extend m) = states m
  ∧ current_state (extend m) = current_state m
  ∧ empty_symbol (extend m) = empty_symbol m
  ∧ implicit_reject (extend m) = implicit_reject m.
Proof. unfold extend. case_decide; repeat split; reflexivity. Qed.

Lemma extend_tape (m : TM) :
  tape (extend m) =
  if decide (Z.of_nat (length (tape m)) ≤ head_pos m)
  then tape m ++ [empty_symbol m] else tape m.
Proof. unfold extend. case_decide; reflexivity. Qed.

Lemma extend_length (m : TM) :
  length (tape (extend m)) =
  (length (tape m) +
   if decide (Z.of_nat (length (tape m)) ≤ head_pos m)%Z then 1 else 0)%nat.
Proof. rewrite extend_tape. case_decide; [rewrite length_app; simpl|]; lia. Qed.

(** ** Every call of [step] leaves by one of the seven ways out *)

Lemma step_step_case (m : TM) : step_case m (step m).
Proof.
  unfold step.
  destruct (extend_fields m) as (Hh & Hs & Hc & _ & _).
  rewrite Hc, Hh.
  destruct (current_state m) as [s|] eqn:Hcur; [|by constructor].
  destruct (decide (transitions s = [])) as [Hts|Hts].
  { rewrite Hts. simpl. eapply case_no_transition; [eassumption|]. by left. }
  destruct (py_getitem (tape (extend m)) (head_pos m)) as [c|e] eqn:Hread.
  2:{ rewrite (matching_Raise _ _ _ e) by done.
      eapply case_bad_index; eauto. }
  rewrite (matching_Ok _ _ _ c) by done.
  fold (triggered s c).
  destruct (triggered s c) as [|t [|t' more]] eqn:Htrig.
  - eapply case_no_transition; [eassumption|]. right. exists c. rewrite Htrig. done.
  - apply py_getitem_Ok in Hread as Hread'. destruct Hread' as (k & Hk & Hlook).
    unfold py_setitem. rewrite Hk.
    change (states (set_tape (extend m) (<[k:=new_symbol t]> (tape (extend m)))))
      with (states (extend m)).
    rewrite Hs.
    destruct (states_named (new_state t) (states m)) as [|s' [|s'' more]] eqn:Hnamed.
    + eapply case_no_target; eauto. rewrite Hnamed. done.
    + eapply case_moved; eauto.
    + eapply case_no_target; eauto. rewrite Hnamed. simpl. lia.
  - eapply case_no_transition; [eassumption|]. right. exists c. rewrite Htrig.
    split; [done|]. simpl. lia.
Qed.

(** ** One iteration of the loop of [run] *)

(** Result and final machine of [S n] iterations, by cases on what the
    first iteration finds. *)
Lemma run_loop_S (verbose : bool) (n : nat) (m : TM) :
  (run_loop verbose (S n) m).1 =
  match current_state m with
  | None =>
      if verbose then (Raise AttributeError, m)
      else if implicit_reject m then (Ok (Some false), m)
      else (Raise (TMError MSG_MISSING), m)
  | Some s =>
      if decide (state_type s = ACCEPTING) then (Ok (Some true), m)
      else if decide (state_type s = REJECTING) then (Ok (Some false), m)
      else match step m with
           | (Raise e, m') => (Raise e, m')
           | (Ok _, m') => (run_loop verbose n m').1
           end
  end.
Proof.
  simpl. unfold trace_line, _config_repr.
  destruct (current_state m) as [s|] eqn:Hcur.
  - assert (Hb : bool_decide (Some s = @None TMState) = false)
      by (apply bool_decide_eq_false; discriminate).
    rewrite Hb, andb_false_r.
    destruct verbose; repeat case_decide; try reflexivity;
      destruct (step m) as [[u|e] m']; try reflexivity;
      destruct (run_loop _ n m') as [[r m''] later]; reflexivity.
  - rewrite bool_decide_eq_true_2 by reflexivity. rewrite andb_true_r.
    destruct verbose, (implicit_reject m); reflexivity.
Qed.

Lemma halting_false (s : TMState) :
  halting s = false ↔ state_type s ≠ ACCEPTING ∧ state_type s ≠ REJECTING.
Proof.
  unfold halting. rewrite bool_decide_eq_false. tauto.
Qed.

Lemma after_S (k : nat) (m m' : TM) :
  after (S k) m = Some m' ↔
  ∃ s m1, current_state m = Some s ∧ halting s = false
          ∧ step m = (Ok tt, m1) ∧ after k m1 = Some m'.
Proof.
  simpl. split.
  - destruct (current_state m) as [s|]; [|discriminate].
    destruct (halting s) eqn:Hh; [discriminate|].
    destruct (step m) as [[[]|e] m1]; [|discriminate].
    intros H. exists s, m1. auto.
  - intros (s & m1 & -> & -> & -> & H). exact H.
Qed.

(** Iterations that neither return nor raise are transparent to the rest
    of the loop. *)
Lemma run_loop_after (verbose : bool) (k n : nat) (m m' : TM) :
  after k m = Some m' →
  (run_loop verbose (k + n) m).1 = (run_loop verbose n m').1.
Proof.
  revert m. induction k as [|k IH]; intros m H.
  - injection H as ->. reflexivity.
  - apply after_S in H as (s & m1 & Hcur & Hh & Hstep & Hafter).
    apply halting_false in Hh as [Ha Hr].
    change (S k + n)%nat with (S (k + n)).
    rewrite run_loop_S, Hcur.
    rewrite decide_False by exact Ha. rewrite decide_False by exact Hr.
    rewrite Hstep. apply IH, Hafter.
Qed.

(** What the loop does is fixed by the first iteration that leaves it. *)
Lemma run_loop_exit (verbose : bool) (n : nat) (m : TM) :
  (∃ m', after n m = Some m' ∧ (run_loop verbose n m).1 = (Ok None, m'))
  ∨ (∃ k m', (k < n)%nat ∧ after k m = Some m' ∧ after 1 m' = None
             ∧ (run_loop verbose n m).1 = (run_loop verbose 1 m').1).
Proof.
  revert m. induction n as [|n IH]; intros m.
  - left. exists m. split; reflexivity.
  - destruct (after 1 m) as [m1|] eqn:H1.
    + apply after_S in H1 as (s & m1' & Hcur & Hh & Hstep & [= ->]).
      assert (Hone : after 1 m = Some m1) by (apply after_S; eauto 10).
      pose proof (run_loop_after verbose 1 n m m1 Hone) as Hrun.
      change (1 + n)%nat with (S n) in Hrun.
      destruct (IH m1) as [(m' & Ha & Hr)|(k & m' & Hk & Ha & Hn & Hr)].
      * left. exists m'. split; [apply after_S; eauto 10|congruence].
      * right. exists (S k), m'. split; [lia|].
        split; [apply after_S; eauto 10|]. split; [exact Hn|congruence].
    + right. exists 0%nat, m. split; [lia|]. split; [reflexivity|].
      split; [exact H1|].
      rewrite !run_loop_S.
      simpl in H1.
      destruct (current_state m) as [s|]; [|reflexivity].
      unfold halting in H1.
      destruct (decide (state_type s = ACCEPTING)) as [Ha|Ha]; [reflexivity|].
      destruct (decide (state_type s = REJECTING)) as [Hr|Hr]; [reflexivity|].
      rewrite bool_decide_eq_false_2 in H1 by tauto.
      destruct (step m) as [[[]|e] m1]; [discriminate|reflexivity].
Qed.

(** [after] is a function of the number of iterations: a loop that went
    through [k] iterations went through every smaller number. *)
Lemma after_le (k j : nat) (m m' : TM) :
  after k m = Some m' → (j ≤ k)%nat → ∃ m'', after j m = Some m''.
Proof.
  revert j m. induction k as [|k IH]; intros j m H Hj.
  - assert (j = 0%nat) as -> by lia. eauto.
  - destruct j as [|j]; [simpl; eauto|].
    apply after_S in H as (s & m1 & Hcur & Hh & Hstep & Hafter).
    destruct (IH j m1 Hafter) as [m'' H'']; [lia|].
    exists m''. apply after_S. eauto 10.
Qed.

Lemma after_add (k j : nat) (m m' : TM) :
  after k m = Some m' → after (k + j) m = after j m'.
Proof.
  revert m. induction k as [|k IH]; intros m H.
  - injection H as ->. reflexivity.
  - apply after_S in H as (s & m1 & Hcur & Hh & Hstep & Hafter).
    change (S k + j)%nat with (S (k + j)). simpl.
    rewrite Hcur, Hh, Hstep. apply IH, Hafter.
Qed.

Lemma run_loop_split (verbose : bool) (n k : nat) (m m' : TM) :
  (k < n)%nat → after k m = Some m' →
  (run_loop verbose n m).1 = (run_loop verbose (S (n - k - 1)) m').1.
Proof.
  intros Hk H. replace n with (k + S (n - k - 1))%nat at 1 by lia.
  apply run_loop_after, H.
Qed.

Lemma current_type_Some (m : TM) (k : TMStateType) :
  current_type m = Some k ↔ ∃ s, current_state m = Some s ∧ state_type s = k.
Proof.
  unfold current_type. destruct (current_state m) as [s|]; simpl; split.
  - intros [= <-]. eauto.
  - intros (s' & [= <-] & ->). reflexivity.
  - discriminate.
  - intros (s' & [=] & _).
Qed.

(** The loop returns [True] exactly when an iteration finds an accepting
    current state. *)
Lemma run_loop_true_iff (verbose : bool) (n : nat) (m : TM) :
  (run_loop verbose n m).1.1 = Ok (Some true) ↔
  ∃ k m', (k < n)%nat ∧ after k m = Some m' ∧ current_type m' = Some ACCEPTING.
Proof.
  split.
  - destruct (run_loop_exit verbose n m)
      as [(m' & _ & Hr)|(k & m' & Hk & Ha & Hn & Hr)]; rewrite Hr.
    + discriminate.
    + intros Hres. exists k, m'. split; [exact Hk|]. split; [exact Ha|].
      rewrite run_loop_S in Hres. apply current_type_Some.
      destruct (current_state m') as [s|].
      * exists s. split; [reflexivity|].
        destruct (decide (state_type s = ACCEPTING)) as [Hacc|Hacc]; [exact Hacc|].
        destruct (decide (state_type s = REJECTING)); [discriminate|].
        destruct (step m') as [[[]|e] m1]; discriminate.
      * destruct verbose, (implicit_reject m'); discriminate.
  - intros (k & m' & Hk & Ha & Ht).
    apply current_type_Some in Ht as (s & Hcur & Hs).
    rewrite (run_loop_split verbose n k m m' Hk Ha), run_loop_S, Hcur.
    rewrite decide_True by exact Hs. reflexivity.
Qed.

(** The loop returns [False] exactly when an iteration finds a rejecting
    current state, or no current state at all on a machine with
    [implicit_reject] and no line to print. *)
Lemma run_loop_false_iff (verbose : bool) (n : nat) (m : TM) :
  (run_loop verbose n m).1.1 = Ok (Some false) ↔
  ∃ k m', (k < n)%nat ∧ after k m = Some m'
          ∧ (current_type m' = Some REJECTING
             ∨ (current_state m' = None ∧ implicit_reject m' = true
                ∧ verbose = false)).
Proof.
  split.
  - destruct (run_loop_exit verbose n m)
      as [(m' & _ & Hr)|(k & m' & Hk & Ha & Hn & Hr)]; rewrite Hr.
    + discriminate.
    + intros Hres. exists k, m'. split; [exact Hk|]. split; [exact Ha|].
      rewrite run_loop_S in Hres. rewrite current_type_Some.
      destruct (current_state m') as [s|].
      * left. exists s. split; [reflexivity|].
        destruct (decide (state_type s = ACCEPTING)); [discriminate|].
        destruct (decide (state_type s = REJECTING)) as [Hrej|Hrej]; [exact Hrej|].
        destruct (step m') as [[[]|e] m1]; discriminate.
      * right. destruct verbose, (implicit_reject m'); try discriminate. auto.
  - intros (k & m' & Hk & Ha & Hcase).
    rewrite (run_loop_split verbose n k m m' Hk Ha), run_loop_S.
    destruct Hcase as [Ht|(Hcur & Himp & ->)].
    + apply current_type_Some in Ht as (s & Hcur & Hs). rewrite Hcur.
      rewrite decide_False by congruence. rewrite decide_True by exact Hs.
      reflexivity.
    + rewrite Hcur, Himp. reflexivity.
Qed.

(** The loop ends without a value exactly when every iteration made a
    normal step from a state that is not halting. *)
Lemma run_loop_none_iff (verbose : bool) (n : nat) (m : TM) :
  (run_loop verbose n m).1.1 = Ok None ↔ ∃ m', after n m = Some m'.
Proof.
  split.
  - destruct (run_loop_exit verbose n m)
      as [(m' & Ha & Hr)|(k & m' & Hk & Ha & Hn & Hr)]; rewrite Hr.
    + eauto.
    + rewrite run_loop_S. simpl in Hn.
      destruct (current_state m') as [s|].
      * unfold halting in Hn.
        destruct (decide (state_type s = ACCEPTING)); [discriminate|].
        destruct (decide (state_type s = REJECTING)); [discriminate|].
        rewrite bool_decide_eq_false_2 in Hn by tauto.
        destruct (step m') as [[[]|e] m1]; discriminate.
      * destruct verbose, (implicit_reject m'); discriminate.
  - intros (m' & Ha).
    destruct (run_loop_exit verbose n m)
      as [(m'' & _ & Hr)|(k & m'' & Hk & Ha' & Hn & _)].
    + rewrite Hr. reflexivity.
    + exfalso. replace n with (k + S (n - k - 1))%nat in Ha by lia.
      rewrite (after_add _ _ _ _ Ha') in Ha.
      replace (S (n - k - 1)) with (1 + (n - k - 1))%nat in Ha by lia.
      destruct (after_le _ 1 _ _ Ha) as [m1 H1]; [lia|]. congruence.
Qed.

(** ** The halting policy of [run] *)

(** A current state that is not halting and has no transition for the symbol
    under the head makes the loop raise, whatever [implicit_reject] is. *)
Lemma run_unmatched_raises (verbose : bool) (n : nat) (m : TM) (s : TMState) :
  current_state m = Some s →
  halting s = false →
  (transitions s = [] ∨ ∃ c, read_symbol m = Ok c ∧ triggered s c = []) →
  (run_loop verbose (S n) m).1 = (Raise (TMError MSG_NO_TRANSITION), extend m).
Proof.
  intros Hcur Hh Hno. apply halting_false in Hh as [Ha Hr].
  rewrite run_loop_S, Hcur.
  rewrite decide_False by exact Ha. rewrite decide_False by exact Hr.
  pose proof (step_step_case m) as Hcase.
  destruct (step m) as [r m1].
  assert (Hempty : ∀ c, read_symbol m = Ok c → triggered s c = []).
  { destruct Hno as [Hnil|(c' & Hread' & Hnil)]; intros c Hread.
    - unfold triggered. rewrite Hnil. reflexivity.
    - congruence. }
  assert (Hraise : ∀ e, transitions s ≠ [] → read_symbol m ≠ Raise e).
  { destruct Hno as [Hnil|(c' & Hread' & Hnil)]; congruence. }
  inversion Hcase as [Hc|s0 e Hc Hts Hread|s0 Hc _|s0 c t k Hc Hread Htrig _ _
                     |s0 c t k s' Hc Hread Htrig _ _]; subst.
  - congruence.
  - assert (s0 = s) as -> by congruence. destruct (Hraise e Hts Hread).
  - reflexivity.
  - assert (s0 = s) as -> by congruence. rewrite (Hempty c Hread) in Htrig.
    discriminate.
  - assert (s0 = s) as -> by congruence. rewrite (Hempty c Hread) in Htrig.
    discriminate.
Qed.

(** C1 (failing input).  Two machines built with [implicit_reject=True].
    The machine of the example script on the tape [['b']]: its start state
    has no transition for ['b'].  The machine of
    [test_no_transitions_raises_error]: its start state has no transition at
    all.  In both, [run] raises the "No possible transition" error of [step]
    instead of returning [False]. *)
Theorem implicit_reject_run_raises :
  (let m := Tests.example_machine ["b"] in
   init Tests.example_states ["b"] "_" true = Ok m
   ∧ implicit_reject m = true
   ∧ (∃ s, current_state m = Some s ∧ read_symbol m = Ok "b"
           ∧ triggered s "b" = [])
   ∧ run_result 1000 false m = Raise (TMError MSG_NO_TRANSITION)
   ∧ run_result 1000 true m = Raise (TMError MSG_NO_TRANSITION))
  ∧ (let m := Tests.no_transition_machine in
     init [Tests.S_plain; Tests.A] [] "_" true = Ok m
     ∧ implicit_reject m = true
     ∧ (∃ s, current_state m = Some s ∧ transitions s = [])
     ∧ run_result 1000 false m = Raise (TMError MSG_NO_TRANSITION)).
Proof.
  split; cbv zeta.
  - split; [reflexivity|]. split; [reflexivity|].
    split; [eexists; repeat split; reflexivity|].
    split; vm_compute; reflexivity.
  - split; [reflexivity|]. split; [reflexivity|].
    split; [eexists; split; reflexivity|].
    vm_compute; reflexivity.
Qed.

(** C2 (as stated, refuted).  The boundary: the machine of
    [test_run_accept_and_reject] enters its accepting state by the step of
    the first iteration, which is the last one that [run(max_steps=1)] is
    allowed, and the call ends without a value, not with [True]. *)
Lemma run_boundary_counterexample :
  let m := Tests.machine Tests.S_to_A [] in
  (∃ m', after 1 m = Some m' ∧ current_type m' = Some ACCEPTING)
  ∧ run_result 1 false m = Ok None
  ∧ run_result 1 false m ≠ Ok (Some true)
  ∧ run_result 1 true m = Ok None
  ∧ run_result 1 true m ≠ Ok (Some true).
Proof.
  cbv zeta.
  split; [eexists; split; vm_compute; reflexivity|].
  split; [vm_compute; reflexivity|].
  split; [vm_compute; discriminate|].
  split; [vm_compute; reflexivity|]. vm_compute. discriminate.
Qed.

(** C2 (amended).  The halting test of an iteration comes before its step,
    so what [run] returns is decided by what an iteration finds: the [k]-th
    one, counted from zero, with [k < max_steps], which the machine reaches
    by [k] normal steps from states that are not halting.  [run] returns
    [True] if and only if such an iteration finds the current state
    accepting.  It returns [False] only if such an iteration finds the
    current state rejecting, or finds no current state on a machine with
    [implicit_reject]; it does return [False] whenever such an iteration
    finds the current state rejecting, and so does a call without tracing
    whenever such an iteration finds no current state on a machine with
    [implicit_reject].  A halting state entered by the step of the last
    iteration is not looked at. *)
Theorem run_true_false_iff (m : TM) (max_steps : Z) (verbose : bool) :
  (run_result max_steps verbose m = Ok (Some true) ↔
   ∃ k m', Z.of_nat k < max_steps ∧ after k m = Some m'
           ∧ current_type m' = Some ACCEPTING)
  ∧ (run_result max_steps verbose m = Ok (Some false) →
     ∃ k m', Z.of_nat k < max_steps ∧ after k m = Some m'
             ∧ (current_type m' = Some REJECTING
                ∨ (current_state m' = None ∧ implicit_reject m' = true)))
  ∧ ((∃ k m', Z.of_nat k < max_steps ∧ after k m = Some m'
              ∧ current_type m' = Some REJECTING) →
     run_result max_steps verbose m = Ok (Some false))
  ∧ ((∃ k m', Z.of_nat k < max_steps ∧ after k m = Some m'
              ∧ current_state m' = None ∧ implicit_reject m' = true) →
     run_result max_steps false m = Ok (Some false)).
Proof.
  unfold run_result, run. split; [|split; [|split]].
  - rewrite run_loop_true_iff. split; intros (k & m' & Hk & H);
      exists k, m'; (split; [lia|exact H]).
  - intros H. apply run_loop_false_iff in H as (k & m' & Hk & Ha & Hcase).
    exists k, m'. split; [lia|]. split; [exact Ha|].
    destruct Hcase as [Hrej|(Hnone & Himp & _)]; [left|right]; auto.
  - intros (k & m' & Hk & Ha & Hrej). apply run_loop_false_iff.
    exists k, m'. split; [lia|]. split; [exact Ha|]. left. exact Hrej.
  - intros (k & m' & Hk & Ha & Hnone & Himp). apply run_loop_false_iff.
    exists k, m'. split; [lia|]. split; [exact Ha|]. right. auto.
Qed.

(** [test_run_accept_and_reject], through the theorem: the accepting state
    is seen by the second iteration, the rejecting one likewise; and a
    machine with [implicit_reject] that has lost its current state. *)
Lemma run_true_false_iff_witness :
  run_result 1000 false (Tests.machine Tests.S_to_A []) = Ok (Some true)
  ∧ run_result 1000 false (Tests.machine Tests.S2_to_R []) = Ok (Some false)
  ∧ run_result 1000 false (set_current_state (Tests.example_machine []) None)
    = Ok (Some false).
Proof.
  split; [|split].
  - apply (proj1 (run_true_false_iff (Tests.machine Tests.S_to_A []) 1000 false)).
    exists 1%nat. eexists. split; [lia|]. split; vm_compute; reflexivity.
  - apply (proj1 (proj2 (proj2
             (run_true_false_iff (Tests.machine Tests.S2_to_R []) 1000 false)))).
    exists 1%nat. eexists. split; [lia|]. split; vm_compute; reflexivity.
  - apply (proj2 (proj2 (proj2
             (run_true_false_iff
                (set_current_state (Tests.example_machine []) None) 1000 false)))).
    exists 0%nat. eexists. split; [lia|]. repeat split; reflexivity.
Defined.

(** C9.  When the loop goes through all its [max_steps] iterations, each
    making a normal step from a state that is not halting, [run] returns
    [None]: a value that is neither [True] nor [False], and it returns
    [None] in no other case.  With [max_steps = 0] no iteration looks at
    the current state, and the value is [None] whatever its kind. *)
Theorem run_step_limit_no_result (m : TM) (max_steps : Z) (verbose : bool) :
  (∀ m', after (Z.to_nat max_steps) m = Some m' →
         (run max_steps verbose m).1 = (Ok None, m')
         ∧ run_result max_steps verbose m ≠ Ok (Some true)
         ∧ run_result max_steps verbose m ≠ Ok (Some false))
  ∧ (run_result max_steps verbose m = Ok None →
     ∃ m', after (Z.to_nat max_steps) m = Some m')
  ∧ run 0 verbose m = (Ok None, m, []).
Proof.
  split; [|split].
  - intros m' Ha. unfold run_result, run.
    destruct (run_loop_exit verbose (Z.to_nat max_steps) m)
      as [(m'' & Ha' & Hr)|(k & m'' & Hk & Ha' & Hn & _)].
    + rewrite Hr. assert (m'' = m') as -> by congruence.
      split; [reflexivity|]. split; discriminate.
    + exfalso.
      assert (Hnone : (run_loop verbose (Z.to_nat max_steps) m).1.1 = Ok None)
        by (apply run_loop_none_iff; eauto).
      replace (Z.to_nat max_steps)
        with (k + S (Z.to_nat max_steps - k - 1))%nat in Ha by lia.
      rewrite (after_add _ _ _ _ Ha') in Ha.
      destruct (after_le _ 1 _ _ Ha) as [m1 H1]; [lia|]. congruence.
  - unfold run_result, run. apply run_loop_none_iff.
  - reflexivity.
Qed.

(** The machine of [test_left_insertion_at_start] never halts; three
    iterations leave it without a value. *)
Lemma run_step_limit_no_result_witness :
  ∃ m', after 3 (Tests.machine Tests.S_left_0 []) = Some m'
        ∧ (run 3 false (Tests.machine Tests.S_left_0 [])).1 = (Ok None, m').
Proof.
  eexists. split.
  - vm_compute. reflexivity.
  - apply (proj1 (run_step_limit_no_result (Tests.machine Tests.S_left_0 []) 3 false)).
    vm_compute. reflexivity.
Defined.

(** ** Construction *)

(** C3.  The constructor raises if and only if the number of [START] states
    is not one, or there is no [ACCEPTING] state, or there is no [REJECTING]
    state while [implicit_reject] is off.  The three tests run in that
    order: the message raised is the one of the first test that fails, the
    three messages differ, whatever is raised is a [TMError], and when no
    test fails the machine is returned with the head at 0 and the start
    state as current state. *)
Theorem init_validation (sts : list TMState) (tp : list Symbol)
    (empty : Symbol) (implicit : bool) :
  let n_start := length (states_of_type START sts) in
  let n_acc := length (states_of_type ACCEPTING sts) in
  let n_rej := length (states_of_type REJECTING sts) in
  ((∃ e, init sts tp empty implicit = Raise e) ↔
   n_start ≠ 1%nat ∨ n_acc = 0%nat ∨ (n_rej = 0%nat ∧ implicit = false))
  ∧ (∀ e, init sts tp empty implicit = Raise e → ∃ msg, e = TMError msg)
  ∧ (n_start ≠ 1%nat →
     init sts tp empty implicit = Raise (TMError MSG_ONE_START))
  ∧ (n_start = 1%nat → n_acc = 0%nat →
     init sts tp empty implicit = Raise (TMError MSG_ACCEPTING))
  ∧ (n_start = 1%nat → n_acc ≠ 0%nat → n_rej = 0%nat → implicit = false →
     init sts tp empty implicit = Raise (TMError MSG_REJECTING))
  ∧ (n_start = 1%nat → n_acc ≠ 0%nat → n_rej ≠ 0%nat ∨ implicit = true →
     ∃ s, states_of_type START sts = [s]
          ∧ init sts tp empty implicit =
            Ok (mkTM empty tp sts implicit 0 (Some s)
                     (states_of_type ACCEPTING sts)
                     (states_of_type REJECTING sts)))
  ∧ MSG_ONE_START ≠ MSG_ACCEPTING
  ∧ MSG_ONE_START ≠ MSG_REJECTING
  ∧ MSG_ACCEPTING ≠ MSG_REJECTING.
Proof.
  intros n_start n_acc n_rej.
  assert (Hone : n_start = 1%nat → ∃ s, states_of_type START sts = [s]).
  { subst n_start. destruct (states_of_type START sts) as [|s [|s' l]];
      try discriminate. eauto. }
  assert (Hinit : init sts tp empty implicit =
    if decide (n_start ≠ 1%nat) then Raise (TMError MSG_ONE_START)
    else if decide (n_acc = 0%nat) then Raise (TMError MSG_ACCEPTING)
    else if negb implicit && bool_decide (n_rej = 0%nat)
    then Raise (TMError MSG_REJECTING)
    else Ok (mkTM empty tp sts implicit 0 (head (states_of_type START sts))
                  (states_of_type ACCEPTING sts) (states_of_type REJECTING sts))).
  { unfold init. fold n_start n_acc n_rej.
    destruct (decide (n_start ≠ 1%nat)) as [Hs|Hs]; [reflexivity|].
    rewrite decide_False by lia. reflexivity. }
  rewrite Hinit. clear Hinit.
  assert (Hrej : negb implicit && bool_decide (n_rej = 0%nat) = true
                 ↔ n_rej = 0%nat ∧ implicit = false).
  { rewrite andb_true_iff, negb_true_iff, bool_decide_eq_true. tauto. }
  destruct (negb implicit && bool_decide (n_rej = 0%nat)) eqn:Hb.
  - destruct (proj1 Hrej eq_refl) as [Hr Hi].
    split; [|split; [|split; [|split; [|split; [|split]]]]].
    + split; [intros _|intros _; repeat case_decide; eauto].
      destruct (decide (n_start = 1%nat)); [|tauto].
      destruct (decide (n_acc = 0%nat)); tauto.
    + intros e. repeat case_decide; intros [= <-]; eauto.
    + intros Hs. rewrite decide_True by exact Hs. reflexivity.
    + intros Hs Ha. rewrite decide_False by lia.
      rewrite decide_True by exact Ha. reflexivity.
    + intros Hs Ha _ _. rewrite decide_False by lia.
      rewrite decide_False by exact Ha. reflexivity.
    + intros _ _ [Hr'|Hi']; [lia|congruence].
    + repeat split; discriminate.
  - assert (Hnot : ¬ (n_rej = 0%nat ∧ implicit = false))
      by (intros H; apply Hrej in H; discriminate).
    split; [|split; [|split; [|split; [|split; [|split]]]]].
    + split.
      * destruct (decide (n_start ≠ 1%nat)) as [Hs|Hs]; [tauto|].
        destruct (decide (n_acc = 0%nat)) as [Ha|Ha]; [tauto|].
        intros [e He]. discriminate.
      * intros Hor.
        destruct (decide (n_start ≠ 1%nat)) as [Hs|Hs]; [eauto|].
        destruct (decide (n_acc = 0%nat)) as [Ha|Ha]; [eauto|].
        tauto.
    + intros e. repeat case_decide; intros [= <-]; eauto.
    + intros Hs. rewrite decide_True by exact Hs. reflexivity.
    + intros Hs Ha. rewrite decide_False by lia.
      rewrite decide_True by exact Ha. reflexivity.
    + intros _ _ Hr Hi. tauto.
    + intros Hs Ha _. rewrite decide_False by lia.
      rewrite decide_False by exact Ha.
      destruct (Hone Hs) as [s Hs']. exists s. rewrite Hs'.
      split; reflexivity.
    + repeat split; discriminate.
Qed.

(** The four constructions of [test_init_errors_missing_states] and the one
    of [test_config_repr], through the theorem. *)
Lemma init_validation_witness :
  init [] [] "_" false = Raise (TMError MSG_ONE_START)
  ∧ init [Tests.S_plain; Tests.R] [] "_" false = Raise (TMError MSG_ACCEPTING)
  ∧ init [Tests.S_plain; Tests.A] [] "_" false = Raise (TMError MSG_REJECTING)
  ∧ ∃ s, states_of_type START [Tests.S_plain; Tests.A; Tests.R] = [s]
         ∧ init [Tests.S_plain; Tests.A; Tests.R] ["0"] "0" false =
           Ok (mkTM "0" ["0"] [Tests.S_plain; Tests.A; Tests.R] false 0 (Some s)
                    (states_of_type ACCEPTING [Tests.S_plain; Tests.A; Tests.R])
                    (states_of_type REJECTING [Tests.S_plain; Tests.A; Tests.R])).
Proof.
  split; [|split; [|split]].
  - apply (init_validation [] [] "_" false). vm_compute. lia.
  - apply (init_validation [Tests.S_plain; Tests.R] [] "_" false);
      vm_compute; reflexivity.
  - apply (init_validation [Tests.S_plain; Tests.A] [] "_" false);
      vm_compute; (reflexivity || lia).
  - apply (init_validation [Tests.S_plain; Tests.A; Tests.R] ["0"] "0" false);
      vm_compute; (reflexivity || lia || (left; lia)).
Defined.

(** ** Tape and head across a step *)

Lemma move_fields (m : TM) (d : TMDirection) :
  states (move m d) = states m
  ∧ current_state (move m d) = current_state m
  ∧ empty_symbol (move m d) = empty_symbol m.
Proof. unfold move. repeat case_decide; repeat split; reflexivity. Qed.

Lemma move_tape_length (m : TM) (d : TMDirection) :
  (length (tape m) ≤ length (tape (move m d)))%nat.
Proof. unfold move. repeat case_decide; simpl; lia. Qed.

(** No call of [step], returning or raising, shortens the tape. *)
Lemma step_tape_length (m : TM) :
  (length (tape m) ≤ length (tape (step m).2))%nat.
Proof.
  pose proof (extend_length m) as Hext.
  destruct (step_step_case m); simpl.
  1-3: lia.
  - rewrite length_insert. lia.
  - etransitivity; [|apply move_tape_length]. simpl. rewrite length_insert. lia.
Qed.

(** A subscript that is in range from the front stays the position it
    names. *)
Lemma py_index_nonneg (n : nat) (i : Z) (k : nat) :
  0 ≤ i → py_index n i = Some k → k = Z.to_nat i ∧ i < Z.of_nat n.
Proof.
  intros Hi. unfold py_index. repeat case_decide; intros [= <-]; lia.
Qed.

(** C4.  From a machine with [0 <= head_pos <= len(tape)], a call of [step]
    that returns normally leaves a machine with [0 <= head_pos <=
    len(tape)]; and the tape after a step, returning or raising, is at least
    as long as before. *)
Theorem step_keeps_head_in_bounds (m : TM) :
  head_in_bounds m →
  (∀ m', step m = (Ok tt, m') → head_in_bounds m')
  ∧ (length (tape m) ≤ length (tape (step m).2))%nat.
Proof.
  intros [Hlo Hhi]. split; [|apply step_tape_length].
  intros m' Hstep.
  pose proof (step_step_case m) as Hcase. rewrite Hstep in Hcase.
  inversion Hcase as [| | | |s c t k s' Hcur Hread Htrig Hk Hnamed].
  destruct (extend_fields m) as (Hh & _).
  apply (py_index_nonneg _ _ _ Hlo) in Hk as [-> Hlt].
  unfold head_in_bounds, move. simpl. rewrite Hh.
  destruct (decide (head_pos m = 0 ∧ direction t = LEFT)) as [[H0 Hd]|Hn];
    simpl; rewrite ?Hh, ?length_insert; [lia|].
  destruct (decide (direction t = LEFT)) as [Hd|Hd]; simpl;
    rewrite ?Hh, ?length_insert; [|lia].
  assert (head_pos m ≠ 0) by tauto. lia.
Qed.

(** [test_head_movement_left_nonzero]: head 1 on a tape of two cells. *)
Lemma step_keeps_head_in_bounds_witness :
  let m := set_head_pos (Tests.machine Tests.S_left_x ["x"; "x"]) 1 in
  ∃ m', step m = (Ok tt, m') ∧ head_in_bounds m'
        ∧ (length (tape m) ≤ length (tape (step m).2))%nat.
Proof.
  cbv zeta. eexists. split; [vm_compute; reflexivity|].
  pose proof (step_keeps_head_in_bounds
                (set_head_pos (Tests.machine Tests.S_left_x ["x"; "x"]) 1)) as H.
  destruct H as [Hb Hl].
  - unfold head_in_bounds. vm_compute. split; discriminate.
  - split; [apply Hb; vm_compute; reflexivity|exact Hl].
Defined.

(** C5 (as stated, refuted).  The tape lengths of the claim do not count
    the cell that line 162 appends.  In [test_left_insertion_at_start] the
    step moves LEFT at head 0 on an empty tape and leaves two cells, not
    one.  On the tape [['x']] the second step of the bouncing machine moves
    LEFT at head 1 and the tape grows from one cell to two. *)
Lemma step_left_length_counterexample :
  (let m := Tests.machine Tests.S_left_0 [] in
   ∃ m' t, step m = (Ok tt, m')
           ∧ current_state m = Some Tests.S_left_0
           ∧ read_symbol m = Ok "_" ∧ triggered Tests.S_left_0 "_" = [t]
           ∧ direction t = LEFT ∧ head_pos m = 0
           ∧ length (tape m) = 0%nat ∧ length (tape m') = 2%nat)
  ∧ (let m := (step (Tests.machine Tests.S_bounce ["x"])).2 in
     ∃ m' t, step m = (Ok tt, m')
             ∧ current_state m = Some Tests.S_bounce
             ∧ read_symbol m = Ok "_" ∧ triggered Tests.S_bounce "_" = [t]
             ∧ direction t = LEFT ∧ head_pos m = 1 ∧ head_pos m' = 0
             ∧ length (tape m) = 1%nat ∧ length (tape m') = 2%nat).
Proof.
  split; cbv zeta; do 2 eexists;
    (split; [vm_compute; reflexivity|]); repeat split; reflexivity.
Qed.

(** C5 (amended).  A step that returns normally matched exactly one
    transition [t] of the current state, and wrote its symbol at the head
    position of the tape as line 162 left it: the tape at entry, with one
    empty cell appended when the head was at or beyond its end.  Measured
    against that tape: moving LEFT at head 0 inserts one empty cell at
    index 0, keeps the head at 0 and makes the tape one cell longer; moving
    LEFT at a head above 0 takes one from the head and keeps the length;
    moving RIGHT adds one to the head and keeps the length. *)
Theorem step_movement (m m' : TM) :
  step m = (Ok tt, m') →
  ∃ s c t k,
    current_state m = Some s ∧ read_symbol m = Ok c ∧ triggered s c = [t]
    ∧ py_index (length (tape (extend m))) (head_pos m) = Some k
    ∧ length (tape (extend m)) =
      (length (tape m) +
       if decide (Z.of_nat (length (tape m)) ≤ head_pos m)%Z then 1 else 0)%nat
    ∧ (direction t = LEFT → head_pos m = 0 →
       tape m' = empty_symbol m :: <[k:=new_symbol t]> (tape (extend m))
       ∧ head_pos m' = 0
       ∧ length (tape m') = S (length (tape (extend m))))
    ∧ (direction t = LEFT → 0 < head_pos m →
       tape m' = <[k:=new_symbol t]> (tape (extend m))
       ∧ head_pos m' = head_pos m - 1
       ∧ length (tape m') = length (tape (extend m)))
    ∧ (direction t = RIGHT →
       tape m' = <[k:=new_symbol t]> (tape (extend m))
       ∧ head_pos m' = head_pos m + 1
       ∧ length (tape m') = length (tape (extend m))).
Proof.
  intros Hstep.
  pose proof (step_step_case m) as Hcase. rewrite Hstep in Hcase.
  inversion Hcase as [| | | |s c t k s' Hcur Hread Htrig Hk Hnamed Hm'].
  destruct (extend_fields m) as (Hh & _ & _ & He & _).
  exists s, c, t, k.
  split; [exact Hcur|]. split; [exact Hread|]. split; [exact Htrig|].
  split; [exact Hk|]. split; [apply extend_length|].
  unfold move. simpl. rewrite Hh, He.
  split; [|split].
  - intros Hd H0. rewrite decide_True by done. simpl.
    rewrite length_insert, ?Hh. done.
  - intros Hd Hpos. rewrite decide_False by (intros [? _]; lia).
    rewrite decide_True by exact Hd. simpl. rewrite length_insert, ?Hh. done.
  - intros Hd. rewrite decide_False by (intros [_ ?]; congruence).
    rewrite decide_False by congruence. simpl.
    rewrite length_insert, ?Hh. done.
Qed.

(** [test_left_insertion_at_start], through the theorem. *)
Lemma step_movement_witness :
  ∃ m', step (Tests.machine Tests.S_left_0 []) = (Ok tt, m')
        ∧ ∃ s c t k,
            current_state (Tests.machine Tests.S_left_0 []) = Some s
            ∧ read_symbol (Tests.machine Tests.S_left_0 []) = Ok c
            ∧ triggered s c = [t]
            ∧ py_index 1 0 = Some k.
Proof.
  eexists. split; [vm_compute; reflexivity|].
  destruct (step_movement (Tests.machine Tests.S_left_0 []) _ eq_refl)
    as (s & c & t & k & Hcur & Hread & Htrig & Hk & _).
  exists s, c, t, k. repeat split; assumption.
Defined.

(** ** What a step does, once the symbol read is known *)

(** On a machine with a current state whose read at the head position gives
    [c], the transitions triggered by [c] and the states that bear the
    target's name decide the way out of [step] and the machine it leaves. *)
Lemma step_known (m : TM) (s : TMState) (c : Symbol) :
  current_state m = Some s → read_symbol m = Ok c →
  (length (triggered s c) ≠ 1%nat →
   step m = (Raise (TMError MSG_NO_TRANSITION), extend m))
  ∧ ∀ t, triggered s c = [t] →
      ∃ k, py_index (length (tape (extend m))) (head_pos m) = Some k
           ∧ (length (states_named (new_state t) (states m)) ≠ 1%nat →
              step m =
              (Raise (TMError MSG_NO_STATE),
               set_tape (extend m) (<[k:=new_symbol t]> (tape (extend m)))))
           ∧ (∀ s', states_named (new_state t) (states m) = [s'] →
              step m =
              (Ok tt,
               move (set_current_state
                       (set_tape (extend m)
                                 (<[k:=new_symbol t]> (tape (extend m))))
                       (Some s'))
                    (direction t))).
Proof.
  intros Hcur Hread.
  pose proof (step_step_case m) as Hcase.
  destruct (step m) as [r m1].
  inversion Hcase as [Hc|s0 e Hc Hts Hraise|s0 Hc Hno
                     |s0 c0 t0 k0 Hc Hread0 Htrig0 Hk0 Hbad
                     |s0 c0 t0 k0 s1 Hc Hread0 Htrig0 Hk0 Hnamed0]; subst;
    try congruence.
  - assert (s0 = s) as -> by congruence. split; [reflexivity|].
    intros t Htrig. exfalso.
    destruct Hno as [Hnil|(c' & Hc' & Hlen)].
    + unfold triggered in Htrig. rewrite Hnil in Htrig. discriminate.
    + assert (c' = c) as -> by congruence. rewrite Htrig in Hlen. done.
  - assert (s0 = s) as -> by congruence.
    assert (c0 = c) as -> by congruence.
    split; [intros Hlen; rewrite Htrig0 in Hlen; done|].
    intros t Htrig. assert (t0 = t) as -> by congruence.
    exists k0. split; [exact Hk0|]. split; [reflexivity|].
    intros s' Hnamed. rewrite Hnamed in Hbad. done.
  - assert (s0 = s) as -> by congruence.
    assert (c0 = c) as -> by congruence.
    split; [intros Hlen; rewrite Htrig0 in Hlen; done|].
    intros t Htrig. assert (t0 = t) as -> by congruence.
    exists k0. split; [exact Hk0|].
    split; [intros Hbad; rewrite Hnamed0 in Hbad; done|].
    intros s' Hnamed. assert (s1 = s') as -> by congruence. reflexivity.
Qed.

(** ** The extension of line 162 *)

Lemma insert_last {A} (l : list A) (x y : A) :
  <[length l:=y]> (l ++ [x]) = l ++ [y].
Proof.
  replace (length l) with (length l + 0)%nat by lia.
  rewrite insert_app_r. reflexivity.
Qed.

(** With the head at or beyond the end, line 162 appends one empty cell,
    and a read that succeeds reads that cell. *)
Lemma extend_at_end (m : TM) :
  Z.of_nat (length (tape m)) ≤ head_pos m →
  extend m = set_tape m (tape m ++ [empty_symbol m])
  ∧ ∀ c, read_symbol m = Ok c →
      c = empty_symbol m
      ∧ head_pos m = Z.of_nat (length (tape m))
      ∧ py_index (length (tape (extend m))) (head_pos m)
        = Some (length (tape m)).
Proof.
  intros Hge.
  assert (Hext : extend m = set_tape m (tape m ++ [empty_symbol m]))
    by (unfold extend; rewrite decide_True by exact Hge; reflexivity).
  split; [exact Hext|].
  intros c Hread. apply py_getitem_Ok in Hread as (k & Hk & Hlook).
  rewrite Hext in Hk, Hlook |- *. simpl in Hk, Hlook |- *.
  rewrite length_app in Hk |- *. simpl in Hk |- *.
  assert (Hlo : 0 ≤ head_pos m) by lia.
  destruct (py_index_nonneg _ _ _ Hlo Hk) as [-> Hlt].
  assert (Heq : head_pos m = Z.of_nat (length (tape m))) by lia.
  rewrite Heq, Nat2Z.id in Hlook.
  rewrite list_lookup_middle in Hlook by reflexivity.
  injection Hlook as <-.
  split; [reflexivity|]. split; [exact Heq|].
  rewrite Heq in Hk |- *. rewrite Nat2Z.id in Hk. exact Hk.
Qed.

(** C6.  On a machine whose head position is at or beyond the end of the
    tape, [step] appends exactly one empty cell before it reads, and the
    symbol it then reads at the head position is the empty symbol: a call
    that returns has matched the one transition of the current state that
    the empty symbol triggers and has written its symbol into the appended
    cell, and each of its two errors is the one the empty symbol calls for.
    The appended cell stays when the call raises: the machine is then the
    old one with that cell at the end of its tape, holding the empty symbol
    unless the write of line 168 went through before the error of line 172.
    With the head at the end of the tape, as on every machine that is driven
    through the constructor, [step] and [run], the read does take place and
    what the empty symbol triggers decides the call. *)
Theorem step_extends_at_end (m : TM) :
  Z.of_nat (length (tape m)) ≤ head_pos m →
  (∀ e, (step m).1 = Raise e → e ≠ TMError MSG_NO_STATE →
        (step m).2 = set_tape m (tape m ++ [empty_symbol m]))
  ∧ ((step m).1 = Raise (TMError MSG_NO_TRANSITION) →
     ∃ s, current_state m = Some s
          ∧ length (triggered s (empty_symbol m)) ≠ 1%nat)
  ∧ ((step m).1 = Raise (TMError MSG_NO_STATE) →
     ∃ s t, current_state m = Some s
            ∧ triggered s (empty_symbol m) = [t]
            ∧ length (states_named (new_state t) (states m)) ≠ 1%nat
            ∧ (step m).2 = set_tape m (tape m ++ [new_symbol t]))
  ∧ ((step m).1 = Ok tt →
     ∃ s t s', current_state m = Some s
               ∧ triggered s (empty_symbol m) = [t]
               ∧ states_named (new_state t) (states m) = [s']
               ∧ (step m).2 =
                 move (set_current_state
                         (set_tape m (tape m ++ [new_symbol t])) (Some s'))
                      (direction t))
  ∧ (head_pos m ≤ Z.of_nat (length (tape m)) →
     ∀ s, current_state m = Some s →
       (length (triggered s (empty_symbol m)) ≠ 1%nat →
        step m = (Raise (TMError MSG_NO_TRANSITION),
                  set_tape m (tape m ++ [empty_symbol m])))
       ∧ ∀ t, triggered s (empty_symbol m) = [t] →
           (length (states_named (new_state t) (states m)) ≠ 1%nat →
            step m = (Raise (TMError MSG_NO_STATE),
                      set_tape m (tape m ++ [new_symbol t])))
           ∧ (∀ s', states_named (new_state t) (states m) = [s'] →
              step m =
              (Ok tt,
               move (set_current_state
                       (set_tape m (tape m ++ [new_symbol t])) (Some s'))
                    (direction t)))).
Proof.
  intros Hge. destruct (extend_at_end m Hge) as [Hext Hread_e].
  assert (Hwritten : ∀ w, set_tape (extend m)
                            (<[length (tape m):=w]> (tape (extend m)))
                          = set_tape m (tape m ++ [w])).
  { intros w. rewrite Hext. simpl. rewrite insert_last. reflexivity. }
  split; [|split; [|split; [|split]]].
  - intros e He Hne.
    destruct (step_step_case m); simpl in *; try exact Hext.
    + congruence.
    + discriminate.
  - destruct (step_step_case m)
      as [Hcur|s e' Hcur Hts Hraise|s Hcur Hno| |]; simpl; try discriminate.
    + intros [= ->]. apply py_getitem_Raise in Hraise as [[=] _].
    + intros _. exists s. split; [exact Hcur|].
      destruct Hno as [Hnil|(c & Hc & Hlen)].
      * unfold triggered. rewrite Hnil. simpl. lia.
      * destruct (Hread_e c Hc) as (-> & _). exact Hlen.
  - destruct (step_step_case m)
      as [Hcur|s e' Hcur Hts Hraise|s Hcur Hno
         |s c t k Hcur Hread Htrig Hk Hbad|]; simpl; try discriminate.
    + intros [= ->]. apply py_getitem_Raise in Hraise as [[=] _].
    + intros _. destruct (Hread_e c Hread) as (-> & _ & Hk').
      assert (k = length (tape m)) as -> by congruence.
      exists s, t. repeat (split; [assumption|]). apply Hwritten.
  - destruct (step_step_case m)
      as [| | | |s c t k s' Hcur Hread Htrig Hk Hnamed]; simpl;
      try discriminate.
    intros _. destruct (Hread_e c Hread) as (-> & _ & Hk').
    assert (k = length (tape m)) as -> by congruence.
    exists s, t, s'. repeat (split; [assumption|]).
    rewrite Hwritten. reflexivity.
  - intros Hle s Hcur.
    assert (Hread : read_symbol m = Ok (empty_symbol m)).
    { apply py_getitem_Ok. exists (length (tape m)).
      rewrite Hext. simpl. rewrite length_app. simpl.
      split; [|apply list_lookup_middle; reflexivity].
      replace (head_pos m) with (Z.of_nat (length (tape m))) by lia.
      rewrite py_index_front by lia. rewrite Nat2Z.id. reflexivity. }
    destruct (step_known m s (empty_symbol m) Hcur Hread) as [Hnone Hone].
    split; [intros Hlen; rewrite (Hnone Hlen), Hext; reflexivity|].
    intros t Htrig. destruct (Hone t Htrig) as (k & Hk & Hbad & Hgood).
    destruct (Hread_e _ Hread) as (_ & _ & Hk').
    assert (k = length (tape m)) as -> by congruence.
    rewrite Hwritten in Hbad, Hgood. split; [exact Hbad|exact Hgood].
Qed.

(** [test_tape_extension_and_right_movement] and
    [test_no_transitions_raises_error]: the head at the end of the empty
    tape, a step that returns and a step that raises. *)
Lemma step_extends_at_end_witness :
  step (Tests.machine Tests.S_write_1 [])
  = (Ok tt,
     move (set_current_state
             (set_tape (Tests.machine Tests.S_write_1 []) ([] ++ ["1"]))
             (Some Tests.A))
          RIGHT)
  ∧ step (Tests.machine Tests.S_plain [])
    = (Raise (TMError MSG_NO_TRANSITION),
       set_tape (Tests.machine Tests.S_plain []) ([] ++ ["_"])).
Proof.
  split.
  - destruct (step_extends_at_end (Tests.machine Tests.S_write_1 []))
      as (_ & _ & _ & _ & Hat); [vm_compute; discriminate|].
    destruct (Hat ltac:(vm_compute; discriminate) Tests.S_write_1 eq_refl)
      as [_ Hone].
    destruct (Hone (mkTransition "_" "A" "1" RIGHT) eq_refl) as [_ Hgood].
    apply (Hgood Tests.A). reflexivity.
  - destruct (step_extends_at_end (Tests.machine Tests.S_plain []))
      as (_ & _ & _ & _ & Hat); [vm_compute; discriminate|].
    destruct (Hat ltac:(vm_compute; discriminate) Tests.S_plain eq_refl)
      as [Hnone _].
    apply Hnone. vm_compute. lia.
Defined.

(** ** The two errors of [step] *)

(** C7.  On a machine with a current state, whose read at the head position
    gives a symbol [c] (or whose current state has no transition at all, so
    that nothing has to be read), [step] raises the "No possible
    transition" error if and only if the number of transitions of the
    current state triggered by [c] is 0 or at least 2.  The message is not
    the one of the other error of [step]. *)
Theorem step_no_transition_iff (m : TM) (s : TMState) (c : Symbol) :
  current_state m = Some s →
  read_symbol m = Ok c ∨ transitions s = [] →
  ((step m).1 = Raise (TMError MSG_NO_TRANSITION) ↔
   length (triggered s c) = 0%nat ∨ (2 ≤ length (triggered s c))%nat)
  ∧ MSG_NO_TRANSITION ≠ MSG_NO_STATE.
Proof.
  intros Hcur Hread. split; [|discriminate].
  assert (Hsame : ∀ c', read_symbol m = Ok c' → triggered s c' = triggered s c).
  { intros c' Hc'. destruct Hread as [Hc|Hnil]; [congruence|].
    unfold triggered. rewrite Hnil. reflexivity. }
  destruct (step_step_case m)
    as [Hcur'|s0 e Hcur' Hts Hraise|s0 Hcur' Hno|s0 c' t k Hcur' Hread' Htrig Hk Hbad
       |s0 c' t k s' Hcur' Hread' Htrig Hk Hnamed]; simpl;
    try (assert (s0 = s) as -> by congruence).
  - congruence.
  - exfalso. destruct Hread; congruence.
  - split; [intros _|reflexivity].
    destruct Hno as [Hnil|(c' & Hc' & Hlen)].
    + left. unfold triggered. rewrite Hnil. reflexivity.
    + rewrite (Hsame c' Hc') in Hlen. lia.
  - rewrite <- (Hsame c' Hread'), Htrig. simpl.
    split; [discriminate|lia].
  - rewrite <- (Hsame c' Hread'), Htrig. simpl.
    split; [discriminate|lia].
Qed.

(** [test_multiple_transitions_error] and
    [test_no_transitions_raises_error], through the theorem. *)
Lemma step_no_transition_iff_witness :
  (step (Tests.machine Tests.S_twice [])).1 = Raise (TMError MSG_NO_TRANSITION)
  ∧ (step (Tests.machine Tests.S_plain [])).1 = Raise (TMError MSG_NO_TRANSITION).
Proof.
  split.
  - apply (step_no_transition_iff (Tests.machine Tests.S_twice []) Tests.S_twice "_");
      [reflexivity|left; reflexivity|right; vm_compute; lia].
  - apply (step_no_transition_iff (Tests.machine Tests.S_plain []) Tests.S_plain "_");
      [reflexivity|right; reflexivity|left; reflexivity].
Defined.

(** C8.  When the one transition matched by a step names a target that zero
    or several states of the machine bear, [step] raises the "Transition to
    a non-existent state" error.  Whenever that error is raised, the
    transition's symbol has been written at the head position and is what
    the tape holds there afterwards, and current state, head position and
    state list are as before the call. *)
Theorem step_dangling (m : TM) :
  (∀ s c t,
     current_state m = Some s → read_symbol m = Ok c → triggered s c = [t] →
     length (states_named (new_state t) (states m)) ≠ 1%nat →
     (step m).1 = Raise (TMError MSG_NO_STATE))
  ∧ ((step m).1 = Raise (TMError MSG_NO_STATE) →
     ∃ s c t,
       current_state m = Some s ∧ read_symbol m = Ok c ∧ triggered s c = [t]
       ∧ length (states_named (new_state t) (states m)) ≠ 1%nat
       ∧ py_setitem (tape (extend m)) (head_pos m) (new_symbol t)
         = Ok (tape (step m).2)
       ∧ py_getitem (tape (step m).2) (head_pos m) = Ok (new_symbol t)
       ∧ current_state (step m).2 = current_state m
       ∧ head_pos (step m).2 = head_pos m
       ∧ states (step m).2 = states m).
Proof.
  destruct (extend_fields m) as (Hh & Hs & Hc & _).
  destruct (step_step_case m)
    as [Hcur|s0 e Hcur Hts Hraise|s0 Hcur Hno|s0 c0 t0 k Hcur Hread Htrig Hk Hbad
       |s0 c0 t0 k s' Hcur Hread Htrig Hk Hnamed]; simpl; split.
  - intros s c t Hcur'. congruence.
  - discriminate.
  - intros s c t Hcur' Hread. congruence.
  - intros [= ->]. apply py_getitem_Raise in Hraise as [[=] _].
  - intros s c t Hcur' Hread Htrig _.
    assert (s0 = s) as -> by congruence.
    destruct Hno as [Hnil|(c' & Hc' & Hlen)].
    + unfold triggered in Htrig. rewrite Hnil in Htrig. discriminate.
    + assert (c' = c) as -> by congruence. rewrite Htrig in Hlen. done.
  - discriminate.
  - reflexivity.
  - intros _. exists s0, c0, t0.
    split; [exact Hcur|]. split; [exact Hread|]. split; [exact Htrig|].
    split; [exact Hbad|].
    split; [unfold py_setitem; rewrite Hk; reflexivity|].
    split; [|auto].
    apply py_getitem_Ok. exists k. rewrite length_insert.
    split; [exact Hk|].
    apply list_lookup_insert_eq, (py_index_lt _ _ _ Hk).
  - intros s c t Hcur' Hread' Htrig' Hbad.
    assert (s0 = s) as -> by congruence.
    assert (c0 = c) as -> by congruence.
    assert (t0 = t) as -> by congruence.
    rewrite Hnamed in Hbad. done.
  - discriminate.
Qed.

(** [test_transition_to_nonexistent_state_error], through the theorem. *)
Lemma step_dangling_witness :
  let m := Tests.machine Tests.S_to_X [] in
  (step m).1 = Raise (TMError MSG_NO_STATE)
  ∧ ∃ s c t,
      current_state m = Some s ∧ read_symbol m = Ok c ∧ triggered s c = [t]
      ∧ py_getitem (tape (step m).2) (head_pos m) = Ok (new_symbol t)
      ∧ current_state (step m).2 = current_state m
      ∧ head_pos (step m).2 = head_pos m.
Proof.
  cbv zeta.
  destruct (step_dangling (Tests.machine Tests.S_to_X [])) as [Hraise Hafter].
  assert (Hr : (step (Tests.machine Tests.S_to_X [])).1 = Raise (TMError MSG_NO_STATE)).
  { apply (Hraise Tests.S_to_X "_" (mkTransition "_" "X" "_" RIGHT));
      [reflexivity|reflexivity|reflexivity|vm_compute; lia]. }
  split; [exact Hr|].
  destruct (Hafter Hr) as (s & c & t & Hcur & Hread & Htrig & _ & _ & Hget & Hc & Hh & _).
  exists s, c, t. repeat split; assumption.
Defined.

(** ** The current state of a driven machine *)

Lemma init_current_in_states (sts : list TMState) (tp : list Symbol)
    (e : Symbol) (ir : bool) (m : TM) :
  init sts tp e ir = Ok m → current_in_states m.
Proof.
  unfold init.
  destruct (decide (length (states_of_type START sts) ≠ 1%nat)) as [|Hone];
    [discriminate|].
  destruct (decide (length (states_of_type START sts) = 0%nat));
    [discriminate|].
  destruct (decide (length (states_of_type ACCEPTING sts) = 0%nat));
    [discriminate|].
  destruct (negb ir && _); [discriminate|].
  intros [= <-]. unfold current_in_states. simpl.
  destruct (states_of_type START sts) as [|s l] eqn:Hst;
    [exfalso; simpl in *; lia|].
  exists s. split; [reflexivity|].
  assert (Hin : s ∈ states_of_type START sts) by (rewrite Hst; left).
  apply list_elem_of_filter in Hin as [_ Hin]. exact Hin.
Qed.

(** A step that returns normally has set the current state to a state of
    the machine. *)
Lemma step_ok_current_in_states (m m' : TM) :
  step m = (Ok tt, m') → current_in_states m'.
Proof.
  intros Hstep.
  pose proof (step_step_case m) as Hcase. rewrite Hstep in Hcase.
  inversion Hcase as [| | | |s c t k s' Hcur Hread Htrig Hk Hnamed Hm'].
  destruct (extend_fields m) as (_ & Hs & _).
  destruct (move_fields
              (set_current_state
                 (set_tape (extend m) (<[k:=new_symbol t]> (tape (extend m))))
                 (Some s')) (direction t)) as (Hms & Hmc & _).
  exists s'. rewrite Hms, Hmc. simpl. split; [reflexivity|].
  rewrite Hs.
  assert (Hin : s' ∈ states_named (new_state t) (states m))
    by (rewrite Hnamed; left).
  apply list_elem_of_filter in Hin as [_ Hin]. exact Hin.
Qed.

(** A step that raises leaves current state and state list as they were. *)
Lemma step_current_in_states (m : TM) :
  current_in_states m → current_in_states (step m).2.
Proof.
  intros Hinv.
  destruct (step m) as [[[]|e] m'] eqn:Hstep.
  { simpl. eapply step_ok_current_in_states, Hstep. }
  pose proof (step_step_case m) as Hcase. rewrite Hstep in Hcase.
  destruct (extend_fields m) as (_ & Hs & Hc & _).
  unfold current_in_states in *. simpl.
  inversion Hcase; subst; simpl; rewrite ?Hs, ?Hc; exact Hinv.
Qed.

Lemma run_loop_current_in_states (verbose : bool) (n : nat) (m : TM) :
  current_in_states m → current_in_states (run_loop verbose n m).1.2.
Proof.
  revert m. induction n as [|n IH]; intros m Hinv; [exact Hinv|].
  rewrite run_loop_S.
  destruct (current_state m) as [s|].
  - repeat case_decide; try exact Hinv.
    pose proof (step_current_in_states m Hinv) as Hstep.
    destruct (step m) as [[[]|e] m']; simpl in *; [apply IH, Hstep|exact Hstep].
  - destruct verbose, (implicit_reject m); exact Hinv.
Qed.

Lemma driven_current_in_states (m : TM) :
  driven m → current_in_states m.
Proof.
  induction 1 as [sts tp e ir m Hinit|m _ IH|max_steps verbose m _ IH].
  - eapply init_current_in_states, Hinit.
  - apply step_current_in_states, IH.
  - apply run_loop_current_in_states, IH.
Qed.

(** The machines that the iterations of [run] see are driven when the
    first one is. *)
Lemma driven_after (k : nat) (m m' : TM) :
  driven m → after k m = Some m' → driven m'.
Proof.
  revert m. induction k as [|k IH]; intros m Hd H.
  - injection H as <-. exact Hd.
  - apply after_S in H as (s & m1 & _ & _ & Hstep & Hafter).
    apply (IH m1); [|exact Hafter].
    replace m1 with (step m).2 by (rewrite Hstep; reflexivity).
    apply driven_step, Hd.
Qed.

(** The exceptions of [step] on a machine with a current state. *)
Lemma step_raise_with_state (m : TM) (e : exn) :
  current_state m ≠ None → (step m).1 = Raise e →
  e = IndexError ∨ e = TMError MSG_NO_TRANSITION ∨ e = TMError MSG_NO_STATE.
Proof.
  intros Hcur.
  destruct (step_step_case m)
    as [Hnone|s e' _ _ Hraise| | |]; simpl; intros [= <-]; auto.
  - contradiction.
  - apply py_getitem_Raise in Hraise as [-> _]. auto.
Qed.

(** C10.  The constructor, when it returns, and [step], when it returns
    normally, leave a current state that is not [None] and is one of the
    machine's states.  So every machine driven through the constructor,
    [step] and [run] only has such a current state, and so has the machine
    at every iteration of a [run] on it: [run] never raises the "missing
    transitions" error of its [None] test, never fails on the name of a
    [None] state, and its [False] always comes from a rejecting state. *)
Theorem current_state_never_none :
  (∀ sts tp e ir m, init sts tp e ir = Ok m → current_in_states m)
  ∧ (∀ m m', step m = (Ok tt, m') → current_in_states m')
  ∧ (∀ m, driven m → current_in_states m)
  ∧ (∀ m k m', driven m → after k m = Some m' → current_in_states m')
  ∧ (∀ m max_steps verbose, driven m →
       run_result max_steps verbose m ≠ Raise (TMError MSG_MISSING)
       ∧ run_result max_steps verbose m ≠ Raise AttributeError
       ∧ (run_result max_steps verbose m = Ok (Some false) →
          current_type (run_machine max_steps verbose m) = Some REJECTING)).
Proof.
  split; [exact init_current_in_states|].
  split; [exact step_ok_current_in_states|].
  split; [exact driven_current_in_states|].
  split.
  { intros m k m' Hd Ha. eapply driven_current_in_states, driven_after; eauto. }
  intros m max_steps verbose Hd. unfold run_result, run_machine, run.
  destruct (run_loop_exit verbose (Z.to_nat max_steps) m)
    as [(m' & _ & Hr)|(k & m' & _ & Ha & _ & Hr)]; rewrite Hr.
  { repeat split; discriminate. }
  destruct (driven_current_in_states m' (driven_after _ _ _ Hd Ha))
    as (s & Hcur & _).
  rewrite run_loop_S, Hcur.
  destruct (decide (state_type s = ACCEPTING)) as [Hacc|Hacc].
  { repeat split; discriminate. }
  destruct (decide (state_type s = REJECTING)) as [Hrej|Hrej].
  { repeat split; try discriminate. intros _.
    apply current_type_Some. eauto. }
  assert (Hsome : current_state m' ≠ None) by congruence.
  pose proof (λ e, step_raise_with_state m' e Hsome) as Hexn.
  destruct (step m') as [[[]|e] m1]; simpl in *.
  { repeat split; discriminate. }
  specialize (Hexn e eq_refl).
  repeat split; try discriminate;
    destruct Hexn as [-> | [-> | ->]]; discriminate.
Qed.

(** The machine of [test_run_accept_and_reject] that rejects, built by the
    constructor and stepped once. *)
Lemma current_state_never_none_witness :
  current_in_states (Tests.machine Tests.S2_to_R [])
  ∧ current_in_states (step (Tests.machine Tests.S2_to_R [])).2
  ∧ current_type (run_machine 1000 false (Tests.machine Tests.S2_to_R []))
    = Some REJECTING.
Proof.
  destruct current_state_never_none as (Hinit & Hstep & Hdriven & _ & Hrun).
  assert (Hd : driven (Tests.machine Tests.S2_to_R [])).
  { apply (driven_init [Tests.S2_to_R; Tests.A; Tests.R] [] "_" false).
    reflexivity. }
  split; [|split].
  - apply (Hinit [Tests.S2_to_R; Tests.A; Tests.R] [] "_" false). reflexivity.
  - apply (Hstep (Tests.machine Tests.S2_to_R [])). vm_compute. reflexivity.
  - apply (Hrun _ 1000 false Hd). vm_compute. reflexivity.
Defined.

(** ** What [step] and [run] leave alone *)

Lemma extend_same_setup (m : TM) : same_setup m (extend m).
Proof. unfold extend, same_setup. case_decide; repeat split; reflexivity. Qed.

Lemma move_same_setup (m : TM) (d : TMDirection) : same_setup m (move m d).
Proof. unfold move, same_setup. repeat case_decide; repeat split; reflexivity. Qed.

Lemma same_setup_trans (m1 m2 m3 : TM) :
  same_setup m1 m2 → same_setup m2 m3 → same_setup m1 m3.
Proof.
  unfold same_setup. intros (?&?&?&?&?) (?&?&?&?&?).
  repeat split; congruence.
Qed.

Lemma step_same_setup (m : TM) : same_setup m (step m).2.
Proof.
  pose proof (extend_same_setup m) as Hext.
  destruct (step_step_case m); simpl; try exact Hext.
  eapply same_setup_trans; [|apply move_same_setup]. exact Hext.
Qed.

Lemma run_loop_same_setup (verbose : bool) (n : nat) (m : TM) :
  same_setup m (run_loop verbose n m).1.2.
Proof.
  revert m. induction n as [|n IH]; intros m.
  - repeat split; reflexivity.
  - rewrite run_loop_S.
    assert (Hrefl : same_setup m m) by (repeat split; reflexivity).
    destruct (current_state m) as [s|].
    + destruct (decide (state_type s = ACCEPTING)); [exact Hrefl|].
      destruct (decide (state_type s = REJECTING)); [exact Hrefl|].
      pose proof (step_same_setup m) as Hstep.
      destruct (step m) as [[[]|e] m']; simpl in *; [|exact Hstep].
      eapply same_setup_trans; [exact Hstep|apply IH].
    + destruct verbose, (implicit_reject m); exact Hrefl.
Qed.

(** X1.  Neither [step] nor [run], returning or raising, assigns the state
    list, the empty symbol, the implicit-reject flag or the lists of
    accepting and rejecting states: only tape, head position and current
    state change. *)
Theorem step_run_keep_setup (m : TM) :
  same_setup m (step m).2
  ∧ ∀ max_steps verbose, same_setup m (run_machine max_steps verbose m).
Proof.
  split; [apply step_same_setup|].
  intros max_steps verbose. apply run_loop_same_setup.
Qed.

(** ** Machines driven through the interface stay well formed *)

Lemma init_well_formed (sts : list TMState) (tp : list Symbol)
    (e : Symbol) (ir : bool) (m : TM) :
  init sts tp e ir = Ok m → well_formed m ∧ head_in_bounds m.
Proof.
  unfold init.
  destruct (decide (length (states_of_type START sts) ≠ 1%nat)) as [|Hone];
    [discriminate|].
  destruct (decide (length (states_of_type START sts) = 0%nat));
    [discriminate|].
  destruct (decide (length (states_of_type ACCEPTING sts) = 0%nat)) as [|Hacc];
    [discriminate|].
  destruct (negb ir && bool_decide (length (states_of_type REJECTING sts) = 0%nat))
    eqn:Hrej; [discriminate|].
  intros [= <-]. unfold well_formed, head_in_bounds. simpl.
  split; [|lia].
  split; [lia|]. split; [reflexivity|]. split; [reflexivity|].
  split.
  - intros Hnil. rewrite Hnil in Hacc. done.
  - intros -> Hnil. rewrite Hnil in Hrej. discriminate.
Qed.

Lemma well_formed_same_setup (m m' : TM) :
  same_setup m m' → well_formed m → well_formed m'.
Proof.
  unfold same_setup, well_formed.
  intros (Hs & _ & Hi & Ha & Hr) (H1 & H2 & H3 & H4 & H5).
  rewrite Hs, Hi, Ha, Hr. auto.
Qed.

(** The head stays within [0 .. len(tape)] across every call of [step],
    raising ones included. *)
Lemma step_head_in_bounds (m : TM) :
  head_in_bounds m → head_in_bounds (step m).2.
Proof.
  intros [Hlo Hhi]. unfold head_in_bounds.
  pose proof (extend_length m) as Hlen.
  destruct (extend_fields m) as (Hh & _).
  destruct (step_step_case m)
    as [| | | |s c t k s' Hcur Hread Htrig Hk Hnamed]; simpl;
    rewrite ?Hh, ?length_insert; try lia.
  apply (py_index_nonneg _ _ _ Hlo) in Hk as [-> Hlt].
  unfold move. simpl. rewrite Hh.
  destruct (decide (head_pos m = 0 ∧ direction t = LEFT)) as [[H0 Hd]|Hn];
    simpl; rewrite ?Hh, ?length_insert; [lia|].
  destruct (decide (direction t = LEFT)) as [Hd|Hd]; simpl;
    rewrite ?Hh, ?length_insert; [|lia].
  assert (head_pos m ≠ 0) by tauto. lia.
Qed.

Lemma run_loop_head_in_bounds (verbose : bool) (n : nat) (m : TM) :
  head_in_bounds m → head_in_bounds (run_loop verbose n m).1.2.
Proof.
  revert m. induction n as [|n IH]; intros m Hinv; [exact Hinv|].
  rewrite run_loop_S.
  destruct (current_state m) as [s|].
  - destruct (decide (state_type s = ACCEPTING)); [exact Hinv|].
    destruct (decide (state_type s = REJECTING)); [exact Hinv|].
    pose proof (step_head_in_bounds m Hinv) as Hstep.
    destruct (step m) as [[[]|e] m']; simpl in *; [apply IH, Hstep|exact Hstep].
  - destruct verbose, (implicit_reject m); exact Hinv.
Qed.

Lemma driven_invariants (m : TM) :
  driven m → well_formed m ∧ head_in_bounds m.
Proof.
  induction 1 as [sts tp e ir m Hinit|m _ [IHw IHh]|max_steps verbose m _ [IHw IHh]].
  - eapply init_well_formed, Hinit.
  - split; [|apply step_head_in_bounds, IHh].
    eapply well_formed_same_setup; [apply step_same_setup|exact IHw].
  - split; [|apply run_loop_head_in_bounds, IHh].
    eapply well_formed_same_setup; [apply run_loop_same_setup|exact IHw].
Qed.

(** X2.  A machine driven through the constructor, [step] and [run] only
    keeps what the constructor checked and set up: exactly one start state,
    the accepting and rejecting states filed under their attributes, an
    accepting state, a rejecting state unless [implicit_reject] is on; and
    its head position stays within [0 .. len(tape)], also after a call that
    raised. *)
Theorem driven_well_formed (m : TM) :
  driven m → well_formed m ∧ head_in_bounds m.
Proof. apply driven_invariants. Qed.

(** The bouncing machine after a run of five steps. *)
Lemma driven_well_formed_witness :
  well_formed (run_machine 5 false (Tests.machine Tests.S_bounce ["x"]))
  ∧ head_in_bounds (run_machine 5 false (Tests.machine Tests.S_bounce ["x"])).
Proof.
  apply driven_well_formed. apply driven_run.
  apply (driven_init [Tests.S_bounce; Tests.A; Tests.R] ["x"] "_" false).
  reflexivity.
Defined.

(** ** The exceptions of a driven machine *)

(** With a current state and the head within [0 .. len(tape)], the only
    exceptions of [step] are its own two. *)
Lemma step_raise_in_bounds (m : TM) (e : exn) :
  current_state m ≠ None → head_in_bounds m →
  (step m).1 = Raise e → step_error e.
Proof.
  intros Hcur [Hlo Hhi]. unfold step_error.
  pose proof (extend_length m) as Hlen.
  destruct (step_step_case m)
    as [Hnone|s e' _ _ Hraise| | |]; simpl; intros [= <-]; auto.
  - contradiction.
  - exfalso. apply py_getitem_Raise in Hraise as [_ Hnone].
    rewrite py_index_front in Hnone; [discriminate|].
    case_decide; lia.
Qed.

Lemma run_loop_raise_in_bounds (verbose : bool) (n : nat) (m : TM) (e : exn) :
  current_in_states m → head_in_bounds m →
  (run_loop verbose n m).1.1 = Raise e → step_error e.
Proof.
  revert m. induction n as [|n IH]; intros m Hcur Hhead; [discriminate|].
  rewrite run_loop_S.
  destruct Hcur as (s & Hs & Hin). rewrite Hs.
  destruct (decide (state_type s = ACCEPTING)); [discriminate|].
  destruct (decide (state_type s = REJECTING)); [discriminate|].
  assert (Hsome : current_state m ≠ None) by congruence.
  pose proof (λ e, step_raise_in_bounds m e Hsome Hhead) as Hexn.
  assert (Hcur' : current_in_states (step m).2)
    by (apply step_current_in_states; exists s; auto).
  pose proof (step_head_in_bounds m Hhead) as Hhead'.
  destruct (step m) as [[[]|e'] m']; simpl in *.
  - apply IH; assumption.
  - intros [= <-]. apply Hexn. reflexivity.
Qed.

(** X3.  On a machine driven through the constructor, [step] and [run]
    only, the one exception a call of [step] or [run] can raise is a
    [TMError] of [step]: "No possible transition" or "Transition to a
    non-existent state".  No subscript goes out of range and no attribute
    of [None] is read. *)
Theorem driven_raises_step_errors_only (m : TM) (e : exn) :
  driven m →
  ((step m).1 = Raise e → step_error e)
  ∧ (∀ max_steps verbose,
       run_result max_steps verbose m = Raise e → step_error e).
Proof.
  intros Hd.
  destruct (driven_current_in_states m Hd) as (s & Hs & Hin).
  destruct (driven_invariants m Hd) as [_ Hhead].
  split.
  - apply step_raise_in_bounds; [congruence|exact Hhead].
  - intros max_steps verbose. apply run_loop_raise_in_bounds; [|exact Hhead].
    exists s. auto.
Qed.

(** [test_no_transitions_raises_error], through the theorem. *)
Lemma driven_raises_step_errors_only_witness :
  step_error (TMError MSG_NO_TRANSITION).
Proof.
  apply (driven_raises_step_errors_only
           (Tests.machine Tests.S_plain []) (TMError MSG_NO_TRANSITION)).
  - apply (driven_init [Tests.S_plain; Tests.A; Tests.R] [] "_" false).
    reflexivity.
  - vm_compute. reflexivity.
Defined.

(** ** Splitting and extending the step budget *)

(** An iteration that goes on to the next one, with what it prints. *)
Lemma run_loop_S_continue (verbose : bool) (n : nat) (m m1 : TM) (s : TMState) :
  current_state m = Some s → halting s = false → step m = (Ok tt, m1) →
  run_loop verbose (S n) m =
  ((run_loop verbose n m1).1,
   (if verbose then [mkConfig (tape m) (head_pos m) (name s)] else [])
   ++ (run_loop verbose n m1).2).
Proof.
  intros Hcur Hh Hstep. apply halting_false in Hh as [Ha Hr].
  simpl. unfold trace_line, _config_repr. rewrite Hcur.
  assert (Hb : bool_decide (Some s = @None TMState) = false)
    by (apply bool_decide_eq_false; discriminate).
  destruct verbose; rewrite Hb, andb_false_r;
    rewrite decide_False by exact Ha; rewrite decide_False by exact Hr;
    rewrite Hstep; destruct (run_loop _ n m1) as [[r m''] later]; reflexivity.
Qed.

(** An iteration that leaves the loop does the same under any budget that
    lets it start. *)
Lemma run_loop_stop (verbose : bool) (n : nat) (m : TM) :
  after 1 m = None → run_loop verbose (S n) m = run_loop verbose 1 m.
Proof.
  intros Hstop. simpl in *.
  destruct (trace_line verbose m) as [printed|e]; [|reflexivity].
  destruct (negb (implicit_reject m) && bool_decide (current_state m = None));
    [reflexivity|].
  destruct (current_state m) as [s|]; [|reflexivity].
  unfold halting in Hstop.
  destruct (decide (state_type s = ACCEPTING)); [reflexivity|].
  destruct (decide (state_type s = REJECTING)); [reflexivity|].
  rewrite bool_decide_eq_false_2 in Hstop by tauto.
  destruct (step m) as [[[]|e] m1]; [discriminate|reflexivity].
Qed.

(** [k] iterations that all go on, followed by [n] more. *)
Lemma run_loop_resume (verbose : bool) (k n : nat) (m m' : TM) :
  after k m = Some m' →
  (run_loop verbose k m).1 = (Ok None, m')
  ∧ run_loop verbose (k + n) m =
    ((run_loop verbose n m').1,
     (run_loop verbose k m).2 ++ (run_loop verbose n m').2).
Proof.
  revert m. induction k as [|k IH]; intros m H.
  - injection H as ->. split; [reflexivity|].
    simpl. destruct (run_loop verbose n m') as [[r mf] tr]. reflexivity.
  - apply after_S in H as (s & m1 & Hcur & Hh & Hstep & Hafter).
    destruct (IH m1 Hafter) as [IH1 IH2].
    change (S k + n)%nat with (S (k + n)).
    rewrite !(run_loop_S_continue verbose _ m m1 s Hcur Hh Hstep).
    simpl. split; [exact IH1|].
    rewrite IH2. simpl. rewrite app_assoc. reflexivity.
Qed.

(** X4.  A call of [run] that ended by a value [True] or [False] or by an
    exception ends the same way under any larger step budget: same result,
    same final machine, same lines printed. *)
Theorem run_budget_stable (m : TM) (max_steps more : Z) (verbose : bool) :
  run_result max_steps verbose m ≠ Ok None →
  max_steps ≤ more →
  run more verbose m = run max_steps verbose m.
Proof.
  unfold run_result, run. intros Hres Hle.
  destruct (run_loop_exit verbose (Z.to_nat max_steps) m)
    as [(m' & _ & Hr)|(k & m' & Hk & Ha & Hstop & _)].
  { rewrite Hr in Hres. done. }
  destruct (run_loop_resume verbose k (Z.to_nat max_steps - k) m m' Ha) as [_ H1].
  destruct (run_loop_resume verbose k (Z.to_nat more - k) m m' Ha) as [_ H2].
  replace (k + (Z.to_nat max_steps - k))%nat with (Z.to_nat max_steps) in H1 by lia.
  replace (k + (Z.to_nat more - k))%nat with (Z.to_nat more) in H2 by lia.
  assert (Hsame : ∀ j, (0 < j)%nat → run_loop verbose j m' = run_loop verbose 1 m').
  { intros [|j] Hj; [lia|]. apply run_loop_stop, Hstop. }
  rewrite H1, H2.
  rewrite (Hsame (Z.to_nat max_steps - k)%nat) by lia.
  rewrite (Hsame (Z.to_nat more - k)%nat) by lia.
  reflexivity.
Qed.

(** The example script's machine accepts [a b a] under the budgets 5 and
    1000 alike. *)
Lemma run_budget_stable_witness :
  run 1000 true (Tests.example_machine ["a"; "b"; "a"])
  = run 5 true (Tests.example_machine ["a"; "b"; "a"]).
Proof.
  apply run_budget_stable; [vm_compute; discriminate|lia].
Defined.

(** X5.  A call of [run] that used up its budget without a value can be
    resumed.  A negative budget makes no iteration, like a budget of zero;
    so running [a] steps and then [b] on the machine the first call left is
    running [max(a, 0) + max(b, 0)] at once, in result, final machine and
    lines printed, for all integers [a] and [b]; and it is running [a + b]
    at once when neither budget is negative. *)
Theorem run_resume (m : TM) (a b : Z) (verbose : bool) :
  run_result a verbose m = Ok None →
  run (Z.max a 0 + Z.max b 0) verbose m =
  ((run b verbose (run_machine a verbose m)).1,
   (run a verbose m).2 ++ (run b verbose (run_machine a verbose m)).2)
  ∧ (0 ≤ a → 0 ≤ b →
     run (a + b) verbose m =
     ((run b verbose (run_machine a verbose m)).1,
      (run a verbose m).2 ++ (run b verbose (run_machine a verbose m)).2)).
Proof.
  unfold run_result, run_machine, run. intros Hnone.
  apply run_loop_none_iff in Hnone as [m' Hafter].
  destruct (run_loop_resume verbose (Z.to_nat a) (Z.to_nat b) m m' Hafter)
    as [H1 H2].
  split.
  - replace (Z.to_nat (Z.max a 0 + Z.max b 0))
      with (Z.to_nat a + Z.to_nat b)%nat by lia.
    rewrite H2, H1. reflexivity.
  - intros Ha Hb. rewrite Z2Nat.inj_add by lia. rewrite H2, H1. reflexivity.
Qed.

(** The bouncing machine, two steps and then three; and a negative budget
    followed by three steps. *)
Lemma run_resume_witness :
  run (2 + 3) true (Tests.machine Tests.S_bounce ["x"]) =
  ((run 3 true (run_machine 2 true (Tests.machine Tests.S_bounce ["x"]))).1,
   (run 2 true (Tests.machine Tests.S_bounce ["x"])).2
   ++ (run 3 true (run_machine 2 true (Tests.machine Tests.S_bounce ["x"]))).2)
  ∧ run (Z.max (-1) 0 + Z.max 3 0) true (Tests.machine Tests.S_bounce ["x"]) =
    ((run 3 true (run_machine (-1) true (Tests.machine Tests.S_bounce ["x"]))).1,
     (run (-1) true (Tests.machine Tests.S_bounce ["x"])).2
     ++ (run 3 true (run_machine (-1) true (Tests.machine Tests.S_bounce ["x"]))).2).
Proof.
  split.
  - apply (run_resume (Tests.machine Tests.S_bounce ["x"]) 2 3 true);
      [vm_compute; reflexivity|lia|lia].
  - apply (run_resume (Tests.machine Tests.S_bounce ["x"]) (-1) 3 true).
    vm_compute. reflexivity.
Defined.

(** X6.  Nothing resets a machine: once [run] has returned [True] or
    [False], every further call of [run] with a budget of at least one step
    and the same tracing returns that value again at once and leaves the
    machine as it is. *)
Theorem run_again_same_value (m : TM) (max_steps again : Z) (verbose : bool)
    (b : bool) :
  run_result max_steps verbose m = Ok (Some b) →
  1 ≤ again →
  (run again verbose (run_machine max_steps verbose m)).1
  = (Ok (Some b), run_machine max_steps verbose m).
Proof.
  unfold run_result, run_machine, run. intros Hres Hone.
  destruct (run_loop_exit verbose (Z.to_nat max_steps) m)
    as [(m' & _ & Hr)|(k & m' & _ & _ & _ & Hr)]; rewrite Hr in *.
  { discriminate. }
  assert (Hfix : ∀ j, (run_loop verbose (S j) m').1 = (Ok (Some b), m')).
  { intros j. rewrite run_loop_S in Hres. rewrite run_loop_S.
    destruct (current_state m') as [s|] eqn:Hcur.
    - destruct (decide (state_type s = ACCEPTING)) as [Hacc|Hacc].
      { simpl in Hres. congruence. }
      destruct (decide (state_type s = REJECTING)) as [Hrej|Hrej].
      { simpl in Hres. congruence. }
      destruct (step m') as [[[]|e] m1]; discriminate.
    - destruct verbose; [discriminate|].
      destruct (implicit_reject m'); [|discriminate].
      simpl in Hres. congruence. }
  rewrite (Hfix 0%nat). simpl.
  replace (Z.to_nat again) with (S (Z.to_nat again - 1)) by lia.
  apply Hfix.
Qed.

(** [test_run_accept_and_reject]: the accepted run, run again. *)
Lemma run_again_same_value_witness :
  (run 7 false (run_machine 1000 false (Tests.machine Tests.S_to_A []))).1
  = (Ok (Some true), run_machine 1000 false (Tests.machine Tests.S_to_A [])).
Proof.
  apply run_again_same_value; [vm_compute; reflexivity|lia].
Defined.

(** ** Tracing *)

Lemma run_loop_quiet (n : nat) (m : TM) : (run_loop false n m).2 = [].
Proof.
  revert m. induction n as [|n IH]; intros m; [reflexivity|].
  simpl.
  destruct (negb (implicit_reject m) && bool_decide (current_state m = None));
    [reflexivity|].
  destruct (current_state m) as [s|]; [|reflexivity].
  destruct (decide (state_type s = ACCEPTING)); [reflexivity|].
  destruct (decide (state_type s = REJECTING)); [reflexivity|].
  destruct (step m) as [[[]|e] m1]; [|reflexivity].
  specialize (IH m1). destruct (run_loop false n m1) as [[r m''] later].
  simpl in *. exact IH.
Qed.

Lemma step_current_not_none (m : TM) :
  current_state m ≠ None → current_state (step m).2 ≠ None.
Proof.
  intros Hcur. destruct (extend_fields m) as (_ & _ & Hc & _).
  destruct (step_step_case m); simpl; rewrite ?Hc; try exact Hcur.
  destruct (move_fields
              (set_current_state
                 (set_tape (extend m) (<[k:=new_symbol t]> (tape (extend m))))
                 (Some s')) (direction t)) as (_ & -> & _).
  discriminate.
Qed.

Lemma run_loop_verbose_same (n : nat) (m : TM) :
  current_state m ≠ None → (run_loop true n m).1 = (run_loop false n m).1.
Proof.
  revert m. induction n as [|n IH]; intros m Hcur; [reflexivity|].
  rewrite !run_loop_S.
  destruct (current_state m) as [s|] eqn:Hs; [|done].
  destruct (decide (state_type s = ACCEPTING)); [reflexivity|].
  destruct (decide (state_type s = REJECTING)); [reflexivity|].
  assert (Hnext : current_state (step m).2 ≠ None)
    by (apply step_current_not_none; congruence).
  destruct (step m) as [[[]|e] m1]; [|reflexivity].
  apply IH, Hnext.
Qed.

(** X7.  Tracing only prints.  Without [verbose] a call of [run] prints
    nothing; and on a machine that has a current state, the result and the
    final machine of [run] are the same with and without [verbose]. *)
Theorem run_tracing_transparent (m : TM) (max_steps : Z) :
  (run max_steps false m).2 = []
  ∧ (current_state m ≠ None →
     (run max_steps true m).1 = (run max_steps false m).1).
Proof.
  unfold run. split; [apply run_loop_quiet|apply run_loop_verbose_same].
Qed.

(** The run of the example script, with and without its trace. *)
Lemma run_tracing_transparent_witness :
  (run 1000 true (Tests.example_machine ["a"; "b"; "a"])).1
  = (run 1000 false (Tests.example_machine ["a"; "b"; "a"])).1.
Proof.
  apply (run_tracing_transparent (Tests.example_machine ["a"; "b"; "a"]) 1000).
  vm_compute. discriminate.
Defined.

Lemma run_loop_trace_S (n : nat) (m : TM) :
  (run_loop true (S n) m).2 =
  match current_state m with
  | None => []
  | Some s =>
      mkConfig (tape m) (head_pos m) (name s)
      :: (if halting s then []
          else match step m with
               | (Ok _, m') => (run_loop true n m').2
               | (Raise _, _) => []
               end)
  end.
Proof.
  simpl. unfold _config_repr, halting.
  destruct (current_state m) as [s|]; [|reflexivity].
  assert (Hb : bool_decide (Some s = @None TMState) = false)
    by (apply bool_decide_eq_false; discriminate).
  rewrite Hb, andb_false_r.
  destruct (decide (state_type s = ACCEPTING)) as [Ha|Ha].
  { rewrite bool_decide_eq_true_2 by tauto. reflexivity. }
  destruct (decide (state_type s = REJECTING)) as [Hr|Hr].
  { rewrite bool_decide_eq_true_2 by tauto. reflexivity. }
  rewrite bool_decide_eq_false_2 by tauto.
  destruct (step m) as [[[]|e] m1]; [|reflexivity].
  destruct (run_loop true n m1) as [[r m''] later]. reflexivity.
Qed.

Lemma run_loop_trace_line (n i : nat) (m : TM) (c : Config) :
  (run_loop true n m).2 !! i = Some c →
  ∃ m' s, after i m = Some m' ∧ current_state m' = Some s
          ∧ c = mkConfig (tape m') (head_pos m') (name s).
Proof.
  revert i m. induction n as [|n IH]; intros i m; [discriminate|].
  rewrite run_loop_trace_S.
  destruct (current_state m) as [s|] eqn:Hcur; [|discriminate].
  destruct i as [|i]; simpl.
  { intros [= <-]. exists m, s. auto. }
  rewrite Hcur.
  destruct (halting s); [discriminate|].
  destruct (step m) as [[[]|e] m1]; [|discriminate].
  apply IH.
Qed.

(** X8.  With [verbose], the [i]-th line that [run] prints, counted from
    zero, shows the machine as the [i]-th iteration found it, before its
    halting test and its step: the tape, the head position and the name of
    the current state after [i] normal steps.  At most [max_steps] lines are
    printed. *)
Theorem run_trace_lines (m : TM) (max_steps : Z) :
  (∀ i c, (run max_steps true m).2 !! i = Some c →
     ∃ m' s, after i m = Some m' ∧ current_state m' = Some s
             ∧ c = mkConfig (tape m') (head_pos m') (name s))
  ∧ (length (run max_steps true m).2 ≤ Z.to_nat max_steps)%nat.
Proof.
  unfold run. split; [intros i c; apply run_loop_trace_line|].
  generalize (Z.to_nat max_steps). intros n. revert m.
  induction n as [|n IH]; intros m; [reflexivity|].
  rewrite run_loop_trace_S.
  destruct (current_state m) as [s|]; [|simpl; lia].
  destruct (halting s); [simpl; lia|].
  specialize (IH (step m).2).
  destruct (step m) as [[[]|e] m1]; simpl in *; lia.
Qed.

(** The third line of the example script's trace. *)
Lemma run_trace_lines_witness :
  ∃ m' s, after 2 (Tests.example_machine ["a"; "b"; "a"]) = Some m'
          ∧ current_state m' = Some s
          ∧ mkConfig ["a"; "b"; "a"] 2 "one_b"
            = mkConfig (tape m') (head_pos m') (name s).
Proof.
  apply (proj1 (run_trace_lines (Tests.example_machine ["a"; "b"; "a"]) 1000) 2%nat).
  vm_compute. reflexivity.
Defined.

(** ** The cells a step touches *)

(** X9.  With a head position that is not negative, a call of [step],
    returning or raising, changes no cell of the tape but the one under the
    head: every other cell keeps its symbol, one place further right when
    the step inserted a cell at the front, which it does only with the head
    at 0. *)
Theorem step_touches_head_cell_only (m : TM) :
  0 ≤ head_pos m →
  ∃ shift : nat,
    (shift = 0%nat ∨ (shift = 1%nat ∧ head_pos m = 0))
    ∧ length (tape (step m).2) =
      (shift + length (tape (extend m)))%nat
    ∧ ∀ i x, tape m !! i = Some x → Z.of_nat i ≠ head_pos m →
             tape (step m).2 !! (shift + i)%nat = Some x.
Proof.
  intros Hlo.
  assert (Hext : ∀ i x, tape m !! i = Some x → tape (extend m) !! i = Some x).
  { intros i x Hi. rewrite extend_tape. case_decide; [|exact Hi].
    apply lookup_app_l_Some, Hi. }
  assert (Hwr : ∀ k w i x, py_index (length (tape (extend m))) (head_pos m) = Some k →
                tape m !! i = Some x → Z.of_nat i ≠ head_pos m →
                <[k:=w]> (tape (extend m)) !! i = Some x).
  { intros k w i x Hk Hi Hne.
    apply (py_index_nonneg _ _ _ Hlo) in Hk as [-> _].
    rewrite list_lookup_insert_ne by lia. apply Hext, Hi. }
  destruct (step_step_case m)
    as [| | |s c t k Hcur Hread Htrig Hk Hbad
       |s c t k s' Hcur Hread Htrig Hk Hnamed]; simpl.
  1-3: exists 0%nat; split; [by left|]; split; [reflexivity|];
       intros i x Hi _; apply Hext, Hi.
  - exists 0%nat. split; [by left|]. split; [apply length_insert|].
    intros i x Hi Hne. apply (Hwr k _ i x Hk Hi Hne).
  - unfold move. simpl.
    destruct (extend_fields m) as (Hh & _). rewrite Hh.
    destruct (decide (head_pos m = 0 ∧ direction t = LEFT)) as [[H0 Hd]|Hn].
    + exists 1%nat. split; [right; done|]. simpl.
      split; [rewrite length_insert; reflexivity|].
      intros i x Hi Hne. apply (Hwr k _ i x Hk Hi Hne).
    + exists 0%nat. split; [by left|].
      destruct (decide (direction t = LEFT)); simpl;
        (split; [apply length_insert|]);
        intros i x Hi Hne; apply (Hwr k _ i x Hk Hi Hne).
Qed.

(** [test_head_movement_left_nonzero]: the cell left of the head stays. *)
Lemma step_touches_head_cell_only_witness :
  ∃ shift : nat,
    (shift = 0%nat ∨ (shift = 1%nat ∧ 1 = 0))
    ∧ tape (step (set_head_pos (Tests.machine Tests.S_left_x ["x"; "x"]) 1)).2
        !! (shift + 0)%nat = Some "x".
Proof.
  destruct (step_touches_head_cell_only
              (set_head_pos (Tests.machine Tests.S_left_x ["x"; "x"]) 1))
    as (shift & Hshift & _ & Hcells).
  - vm_compute. discriminate.
  - exists shift. split; [exact Hshift|].
    apply Hcells; [reflexivity|vm_compute; discriminate].
Defined.

(** ** What the constructor looks at *)

Lemma states_of_type_length (k : TMStateType) (sts : list TMState) :
  length (states_of_type k sts)
  = length (filter (λ t, t = k) (map state_type sts)).
Proof.
  unfold states_of_type. induction sts as [|s sts IH]; [reflexivity|].
  simpl. rewrite !filter_cons.
  destruct (decide (state_type s = k)); simpl; rewrite IH; reflexivity.
Qed.

(** X10.  The constructor validates the kinds of the states and nothing
    else.  Two state lists with the same kinds in the same order are both
    accepted or both refused with the same error, whatever the names, the
    transitions, the tape and the empty symbol: repeated names,
    transitions on the same symbol and targets that no state bears all pass
    construction. *)
Theorem init_looks_at_kinds_only (sts1 sts2 : list TMState)
    (tp1 tp2 : list Symbol) (e1 e2 : Symbol) (implicit : bool) :
  map state_type sts1 = map state_type sts2 →
  match init sts1 tp1 e1 implicit, init sts2 tp2 e2 implicit with
  | Ok _, Ok _ => True
  | Raise x, Raise y => x = y
  | _, _ => False
  end.
Proof.
  intros Hkinds. unfold init.
  rewrite !(states_of_type_length _ sts1), !(states_of_type_length _ sts2), Hkinds.
  repeat (case_decide; [reflexivity|]).
  destruct (negb implicit && _); [reflexivity|exact I].
Qed.

(** Two states of one name next to two of different names; a state with
    two transitions on one symbol to a name nobody bears. *)
Lemma init_looks_at_kinds_only_witness :
  match init [Tests.S_plain; Tests.A; Tests.R] [] "_" false,
        init [Tests.S_twice; new_TMState "S" ACCEPTING; new_TMState "S" REJECTING]
             ["x"] "0" false with
  | Ok _, Ok _ => True
  | Raise x, Raise y => x = y
  | _, _ => False
  end.
Proof.
  apply init_looks_at_kinds_only. reflexivity.
Defined.

(** ** Building a state and the determinism test of [step] *)

Lemma triggered_add_transition (s : TMState) (sym : Symbol) (target : string)
    (wr : Symbol) (d : TMDirection) (c : Symbol) :
  triggered (add_transition s sym target wr d) c =
  triggered s c ++ (if decide (sym = c) then [mkTransition sym target wr d] else []).
Proof.
  unfold triggered, add_transition, py_append. simpl.
  rewrite filter_app, filter_cons, filter_nil. simpl.
  destruct (decide (sym = c)); reflexivity.
Qed.

(** X11.  [add_transition] keeps name and kind and does not look at what
    the state already has.  A transition added for a symbol leaves the
    transitions triggered by every other symbol as they were; added for a
    symbol the state had no transition for, it is the one triggered; added
    for a symbol the state already had a transition for, it makes every
    [step] that reads this symbol in this state raise the "No possible
    transition" error. *)
Theorem add_transition_determinism (s : TMState) (sym : Symbol)
    (target : string) (wr : Symbol) (d : TMDirection) :
  let s' := add_transition s sym target wr d in
  name s' = name s ∧ state_type s' = state_type s
  ∧ (∀ c, c ≠ sym → triggered s' c = triggered s c)
  ∧ (triggered s sym = [] →
     triggered s' sym = [mkTransition sym target wr d])
  ∧ (triggered s sym ≠ [] →
     ∀ m, current_state m = Some s' → read_symbol m = Ok sym →
          step m = (Raise (TMError MSG_NO_TRANSITION), extend m)).
Proof.
  intros s'. split; [reflexivity|]. split; [reflexivity|].
  split; [|split].
  - intros c Hne. unfold s'. rewrite triggered_add_transition.
    rewrite decide_False by congruence. apply app_nil_r.
  - intros Hnil. unfold s'. rewrite triggered_add_transition, Hnil.
    rewrite decide_True by reflexivity. reflexivity.
  - intros Hsome m Hcur Hread.
    assert (Hlen : (2 ≤ length (triggered s' sym))%nat).
    { unfold s'. rewrite triggered_add_transition.
      rewrite decide_True by reflexivity. rewrite length_app. simpl.
      destruct (triggered s sym); [done|simpl; lia]. }
    pose proof (step_step_case m) as Hcase.
    destruct (step m) as [r m1].
    inversion Hcase as [Hc|s0 e Hc Hts Hraise|s0 Hc _
                       |s0 c t k Hc Hread' Htrig _ _
                       |s0 c t k s1 Hc Hread' Htrig _ _]; subst.
    + congruence.
    + congruence.
    + reflexivity.
    + assert (s0 = s') as -> by congruence.
      assert (c = sym) as -> by congruence.
      rewrite Htrig in Hlen. simpl in Hlen. lia.
    + assert (s0 = s') as -> by congruence.
      assert (c = sym) as -> by congruence.
      rewrite Htrig in Hlen. simpl in Hlen. lia.
Qed.

(** [test_multiple_transitions_error]: the second transition on ['_']. *)
Lemma add_transition_determinism_witness :
  step (Tests.machine Tests.S_twice [])
  = (Raise (TMError MSG_NO_TRANSITION), extend (Tests.machine Tests.S_twice [])).
Proof.
  apply (add_transition_determinism Tests.S_to_A "_" "R" "_" RIGHT);
    [vm_compute; discriminate|reflexivity|reflexivity].
Defined.

(** ** Printing *)

Example test_direction_str_repr :
  TMDirection_str LEFT = "LEFT" ∧ TMDirection_repr RIGHT = "TMDirection.RIGHT".
Proof. split; reflexivity. Qed.

Example test_statetype_str_repr :
  TMStateType_str ACCEPTING = "ACCEPTING"
  ∧ TMStateType_repr REJECTING = "TMStateType.REJECTING".
Proof. split; reflexivity. Qed.

Example test_state_str_repr_and_add_transition :
  let s := new_TMState "A" NORMAL in
  TMState_str s = "A" ∧ TMState_repr s = "TMState(name=A, type=NORMAL)"
  ∧ transitions (add_transition s "x" "B" "y" RIGHT)
    = [mkTransition "x" "B" "y" RIGHT].
Proof. repeat split; reflexivity. Qed.

(** X12.  The text of a direction and of a state kind names it: [str] and
    [repr] give different texts for different members, and so do the
    integer values of the members. *)
Theorem enum_texts_injective :
  (∀ d1 d2, TMDirection_str d1 = TMDirection_str d2 → d1 = d2)
  ∧ (∀ d1 d2, TMDirection_repr d1 = TMDirection_repr d2 → d1 = d2)
  ∧ (∀ d1 d2, TMDirection_value d1 = TMDirection_value d2 → d1 = d2)
  ∧ (∀ k1 k2, TMStateType_str k1 = TMStateType_str k2 → k1 = k2)
  ∧ (∀ k1 k2, TMStateType_repr k1 = TMStateType_repr k2 → k1 = k2)
  ∧ (∀ k1 k2, TMStateType_value k1 = TMStateType_value k2 → k1 = k2).
Proof.
  repeat split; intros [] []; simpl; intros H;
    try reflexivity; discriminate H.
Qed.

Lemma enum_texts_injective_witness :
  LEFT = LEFT ∧ NORMAL = NORMAL.
Proof.
  destruct enum_texts_injective as (Hd & _ & _ & Hk & _).
  split; [apply Hd|apply Hk]; reflexivity.
Defined.

Lemma ascii_list_append (a b : string) :
  String.list_ascii_of_string (a +:+ b)
  = String.list_ascii_of_string a ++ String.list_ascii_of_string b.
Proof. induction a as [|c a IH]; simpl; [reflexivity|]. rewrite IH. reflexivity. Qed.

Lemma ascii_list_inj (a b : string) :
  String.list_ascii_of_string a = String.list_ascii_of_string b → a = b.
Proof.
  intros H. rewrite <- (String.string_of_list_ascii_of_string a),
    <- (String.string_of_list_ascii_of_string b), H. reflexivity.
Qed.

(** X13.  The [repr] of a state tells its name and its kind: two states
    with the same [repr] have the same name and the same kind, whatever
    characters the names hold.  The transitions are not shown. *)
Theorem TMState_repr_injective (s1 s2 : TMState) :
  TMState_repr s1 = TMState_repr s2 →
  name s1 = name s2 ∧ state_type s1 = state_type s2.
Proof.
  unfold TMState_repr. intros H.
  apply (f_equal String.list_ascii_of_string) in H.
  rewrite !ascii_list_append in H.
  apply app_inv_head in H.
  apply (f_equal (@rev _)) in H. rewrite !rev_app_distr in H.
  destruct (state_type s1), (state_type s2); simpl in H;
    try discriminate H;
    (split; [|reflexivity]);
    apply ascii_list_inj, rev_inj;
    repeat (injection H as H); exact H.
Qed.

(** Two states of one name and kind and different transitions. *)
Lemma TMState_repr_injective_witness :
  name Tests.S_to_A = name Tests.S_to_X
  ∧ state_type Tests.S_to_A = state_type Tests.S_to_X.
Proof.
  apply TMState_repr_injective. reflexivity.
Defined.

(** ** The machine of the example script *)

(** A step that reads cell [k] of the tape, extended if need be, matches
    one transition whose target one state bears, and moves RIGHT. *)
Lemma step_right (m : TM) (s s' : TMState) (t : TMTransition) (k : nat)
    (c : Symbol) :
  current_state m = Some s →
  head_pos m = Z.of_nat k →
  tape (extend m) !! k = Some c →
  triggered s c = [t] →
  states_named (new_state t) (states m) = [s'] →
  direction t = RIGHT →
  step m =
  (Ok tt,
   set_head_pos
     (set_current_state
        (set_tape (extend m) (<[k:=new_symbol t]> (tape (extend m))))
        (Some s'))
     (Z.of_nat k + 1)).
Proof.
  intros Hcur Hhead Hcell Htrig Hnamed Hdir.
  assert (Hk : py_index (length (tape (extend m))) (head_pos m) = Some k).
  { rewrite Hhead, py_index_front, Nat2Z.id; [reflexivity|].
    apply lookup_lt_Some in Hcell. lia. }
  assert (Hread : read_symbol m = Ok c).
  { apply py_getitem_Ok. exists k. auto. }
  pose proof (step_step_case m) as Hcase.
  destruct (step m) as [r m1].
  inversion Hcase as [Hc|s0 e Hc Hts Hraise|s0 Hc Hno
                     |s0 c0 t0 k0 Hc Hread0 Htrig0 Hk0 Hbad
                     |s0 c0 t0 k0 s1 Hc Hread0 Htrig0 Hk0 Hnamed0]; subst;
    try congruence.
  - assert (s0 = s) as -> by congruence.
    destruct Hno as [Hnil|(c' & Hc' & Hlen)].
    + unfold triggered in Htrig. rewrite Hnil in Htrig. discriminate.
    + assert (c' = c) as -> by congruence. rewrite Htrig in Hlen. done.
  - assert (s0 = s) as -> by congruence.
    assert (c0 = c) as -> by congruence.
    assert (t0 = t) as -> by congruence.
    rewrite Hnamed in Hbad. done.
  - assert (s0 = s) as -> by congruence.
    assert (c0 = c) as -> by congruence.
    assert (t0 = t) as -> by congruence.
    assert (k0 = k) as -> by congruence.
    assert (s1 = s') as -> by congruence.
    f_equal. unfold move.
    rewrite decide_False by (intros [_ ?]; congruence).
    rewrite decide_False by congruence.
    destruct (extend_fields m) as (Hh & _).
    unfold set_head_pos. simpl. rewrite Hh, Hhead. reflexivity.
Qed.

Lemma aba_tape_length (n : nat) : length (aba_tape n) = S (S n).
Proof. unfold aba_tape. simpl. rewrite length_replicate. reflexivity. Qed.

(** In [one_b], over an [a] of the tail of the tape. *)
Lemma example_step_over_a (n j : nat) :
  (j < n)%nat →
  step (example_at (aba_tape n) (Z.of_nat (2 + j)) ex_one_b)
  = (Ok tt, example_at (aba_tape n) (Z.of_nat (2 + S j)) ex_one_b).
Proof.
  intros Hj.
  set (m := example_at (aba_tape n) (Z.of_nat (2 + j)) ex_one_b).
  assert (Hext : extend m = m).
  { unfold extend. rewrite decide_False; [reflexivity|].
    unfold m. simpl tape. simpl head_pos. rewrite aba_tape_length. lia. }
  assert (Hcell : aba_tape n !! (2 + j)%nat = Some "a":>option Symbol).
  { unfold aba_tape. simpl. apply lookup_replicate_2, Hj. }
  rewrite (step_right m ex_one_b ex_one_b
             (mkTransition "a" "one_b" "a" RIGHT) (2 + j) "a");
    try reflexivity; [|rewrite Hext; exact Hcell].
  rewrite Hext. unfold m, example_at, set_head_pos, set_current_state, set_tape.
  simpl. f_equal. f_equal; [|lia].
  change ("a" :: "b" :: <[j:="a"]> (replicate n "a") = aba_tape n).
  unfold aba_tape. do 2 f_equal.
  apply list_insert_id, lookup_replicate_2, Hj.
Qed.

(** From [one_b] at cell [2 + j], the loop goes through the rest of the
    tape and the blank behind it, and arrives in [accept]. *)
Lemma example_after_one_b (n j : nat) :
  (j ≤ n)%nat →
  after (S (n - j)) (example_at (aba_tape n) (Z.of_nat (2 + j)) ex_one_b)
  = Some (example_at (aba_tape n ++ ["_"]) (Z.of_nat n + 3) ex_accept).
Proof.
  intros Hj. remember (n - j)%nat as d eqn:Hd.
  revert j Hj Hd. induction d as [|d IH]; intros j Hj Hd.
  - assert (j = n) as -> by lia.
    set (m := example_at (aba_tape n) (Z.of_nat (2 + n)) ex_one_b).
    assert (Hext : tape (extend m) = aba_tape n ++ ["_"]).
    { rewrite extend_tape. rewrite decide_True; [reflexivity|].
      unfold m. simpl tape. simpl head_pos. rewrite aba_tape_length. lia. }
    apply after_S. exists ex_one_b. eexists.
    split; [reflexivity|]. split; [reflexivity|]. split; [|reflexivity].
    rewrite (step_right m ex_one_b ex_accept
               (mkTransition "_" "accept" "_" RIGHT) (2 + n) "_");
      try reflexivity.
    + f_equal. destruct (extend_fields m) as (Hh & Hs & Hc & He & Hi).
      unfold set_head_pos, set_current_state, set_tape, example_at. simpl.
      rewrite Hs, He, Hi, Hext.
      assert (Hsetup := extend_same_setup m).
      destruct Hsetup as (_ & _ & _ & -> & ->).
      unfold m, example_at. simpl.
      f_equal; [|lia].
      change ("a" :: "b" :: <[n:="_"]> (replicate n "a" ++ ["_"])
              = "a" :: "b" :: replicate n "a" ++ ["_"]).
      do 2 f_equal.
      apply list_insert_id.
      rewrite lookup_app_r by (rewrite length_replicate; lia).
      rewrite length_replicate, Nat.sub_diag. reflexivity.
    + rewrite Hext. rewrite lookup_app_r by (rewrite aba_tape_length; lia).
      rewrite aba_tape_length, Nat.sub_diag. reflexivity.
  - apply after_S. exists ex_one_b. eexists.
    split; [reflexivity|]. split; [reflexivity|].
    split; [apply example_step_over_a; lia|].
    apply IH; lia.
Qed.

(** The whole way: [start], [one_a], then the lemma above. *)
Lemma example_after (n : nat) :
  after (n + 3) (Tests.example_machine (aba_tape n))
  = Some (example_at (aba_tape n ++ ["_"]) (Z.of_nat n + 3) ex_accept).
Proof.
  replace (n + 3)%nat with (S (S (S (n - 0)))) by lia.
  apply after_S. exists ex_start, (example_at (aba_tape n) 1 ex_one_a).
  split; [reflexivity|]. split; [reflexivity|]. split.
  { change (Tests.example_machine (aba_tape n))
      with (example_at (aba_tape n) 0 ex_start).
    rewrite (step_right _ ex_start ex_one_a
               (mkTransition "a" "one_a" "a" RIGHT) 0 "a"); reflexivity. }
  apply after_S. exists ex_one_a, (example_at (aba_tape n) 2 ex_one_b).
  split; [reflexivity|]. split; [reflexivity|]. split.
  { assert (Hext : extend (example_at (aba_tape n) 1 ex_one_a)
                   = example_at (aba_tape n) 1 ex_one_a).
    { unfold extend. simpl tape. simpl head_pos.
      rewrite aba_tape_length. rewrite decide_False by lia. reflexivity. }
    rewrite (step_right _ ex_one_a ex_one_b
               (mkTransition "b" "one_b" "b" RIGHT) 1 "b");
      rewrite ?Hext; reflexivity. }
  apply (example_after_one_b n 0). lia.
Qed.

(** X14.  The machine of the example script, on a tape [a b a^n]: [run]
    returns [True] as soon as its budget is at least [n + 4], having moved
    the head to cell [n + 3] over a tape that gained one blank at its end;
    with a smaller budget, zero or more, it ends without a value. *)
Theorem example_accepts_aba (n : nat) (max_steps : Z) (verbose : bool) :
  (Z.of_nat n + 4 ≤ max_steps →
   (run max_steps verbose (Tests.example_machine (aba_tape n))).1
   = (Ok (Some true),
      example_at (aba_tape n ++ ["_"]) (Z.of_nat n + 3) ex_accept))
  ∧ (max_steps ≤ Z.of_nat n + 3 →
     run_result max_steps verbose (Tests.example_machine (aba_tape n))
     = Ok None).
Proof.
  pose proof (example_after n) as Hafter. unfold run_result, run. split.
  - intros Hle.
    rewrite (run_loop_split verbose (Z.to_nat max_steps) (n + 3) _ _
               ltac:(lia) Hafter).
    rewrite run_loop_S. reflexivity.
  - intros Hle. apply run_loop_none_iff.
    apply (after_le (n + 3) (Z.to_nat max_steps) _ _ Hafter). lia.
Qed.

(** The run of the example script itself: [a b a], budget 1000. *)
Lemma example_accepts_aba_witness :
  (run 1000 true (Tests.example_machine (aba_tape 1))).1
  = (Ok (Some true), example_at (aba_tape 1 ++ ["_"]) 4 ex_accept)
  ∧ run_result 4 true (Tests.example_machine (aba_tape 1)) = Ok None.
Proof.
  split.
  - apply (proj1 (example_accepts_aba 1 1000 true)). lia.
  - apply (proj2 (example_accepts_aba 1 4 true)). lia.
Defined.

(** ** When a step returns *)

(** X15.  A call of [step] returns normally if and only if the machine has
    a current state, the read at the head position gives a symbol, exactly
    one transition of the current state is triggered by it, and exactly one
    state of the machine bears the name of its target.  When these hold,
    the call returns, that state is the current state afterwards, the
    transition's symbol stands in the cell that was read, and the head has
    moved as the transition says. *)
Theorem step_returns_iff (m : TM) :
  ((step m).1 = Ok tt ↔
   ∃ s c t s',
     current_state m = Some s ∧ read_symbol m = Ok c ∧ triggered s c = [t]
     ∧ states_named (new_state t) (states m) = [s'])
  ∧ ∀ s c t s',
      current_state m = Some s → read_symbol m = Ok c → triggered s c = [t] →
      states_named (new_state t) (states m) = [s'] →
      (step m).1 = Ok tt
      ∧ current_state (step m).2 = Some s'
      ∧ ∃ k, py_index (length (tape (extend m))) (head_pos m) = Some k
             ∧ (step m).2 =
               move (set_current_state
                       (set_tape (extend m)
                                 (<[k:=new_symbol t]> (tape (extend m))))
                       (Some s'))
                    (direction t).
Proof.
  assert (Hif : ∀ s c t s',
      current_state m = Some s → read_symbol m = Ok c → triggered s c = [t] →
      states_named (new_state t) (states m) = [s'] →
      (step m).1 = Ok tt
      ∧ current_state (step m).2 = Some s'
      ∧ ∃ k, py_index (length (tape (extend m))) (head_pos m) = Some k
             ∧ (step m).2 =
               move (set_current_state
                       (set_tape (extend m)
                                 (<[k:=new_symbol t]> (tape (extend m))))
                       (Some s'))
                    (direction t)).
  { intros s c t s' Hcur Hread Htrig Hnamed.
    destruct (step_known m s c Hcur Hread) as [_ Hone].
    destruct (Hone t Htrig) as (k & Hk & _ & Hgood).
    rewrite (Hgood s' Hnamed). simpl.
    split; [reflexivity|]. split; [|eauto].
    destruct (move_fields
                (set_current_state
                   (set_tape (extend m) (<[k:=new_symbol t]> (tape (extend m))))
                   (Some s')) (direction t)) as (_ & -> & _).
    reflexivity. }
  split; [|exact Hif]. split.
  - intros Hok. pose proof (step_step_case m) as Hcase.
    destruct (step m) as [r m1]. simpl in Hok. subst r.
    inversion Hcase as [| | | |s c t k s' Hcur Hread Htrig Hk Hnamed Hm1].
    exists s, c, t, s'. auto.
  - intros (s & c & t & s' & Hcur & Hread & Htrig & Hnamed).
    apply (Hif s c t s' Hcur Hread Htrig Hnamed).
Qed.

(** [test_tape_extension_and_right_movement]: the one step of its run. *)
Lemma step_returns_iff_witness :
  (step (Tests.machine Tests.S_write_1 [])).1 = Ok tt
  ∧ current_state (step (Tests.machine Tests.S_write_1 [])).2 = Some Tests.A.
Proof.
  destruct (proj2 (step_returns_iff (Tests.machine Tests.S_write_1 []))
              Tests.S_write_1 "_" (mkTransition "_" "A" "1" RIGHT) Tests.A
              eq_refl eq_refl eq_refl eq_refl) as (Hok & Hcur & _).
  split; [exact Hok|exact Hcur].
Defined.

(** ** How far a run can go *)

Lemma step_growth (m : TM) :
  (length (tape (step m).2) ≤ Nat.max (length (tape m)) 1 + 1)%nat
  ∧ head_pos m - 1 ≤ head_pos (step m).2 ≤ head_pos m + 1.
Proof.
  pose proof (extend_length m) as Hlen.
  destruct (extend_fields m) as (Hh & _).
  destruct (decide (Z.of_nat (length (tape m)) ≤ head_pos m)) as [Hge|Hlt];
    (destruct (step_step_case m)
       as [| | | |s c t k s' Hcur Hread Htrig Hk Hnamed]; simpl;
     rewrite ?length_insert, ?Hh; [lia|lia|lia|lia|]);
    unfold move; simpl; rewrite Hh;
    (destruct (decide (head_pos m = 0 ∧ direction t = LEFT)) as [[H0 Hd]|Hn];
     [|destruct (decide (direction t = LEFT))]);
    simpl; rewrite ?length_insert, ?Hh; lia.
Qed.

(** X16.  A step makes the tape at most one cell longer, two when the tape
    was empty, and moves the head by at most one cell.  So a call of [run]
    with a budget of [n] steps leaves a tape of at most [max(len, 1) + n]
    cells and a head at most [n] cells from where it was. *)
Theorem run_growth_bounds (m : TM) :
  ((length (tape (step m).2) ≤ Nat.max (length (tape m)) 1 + 1)%nat
   ∧ head_pos m - 1 ≤ head_pos (step m).2 ≤ head_pos m + 1)
  ∧ ∀ max_steps verbose,
      (length (tape (run_machine max_steps verbose m))
       ≤ Nat.max (length (tape m)) 1 + Z.to_nat max_steps)%nat
      ∧ head_pos m - Z.of_nat (Z.to_nat max_steps)
        ≤ head_pos (run_machine max_steps verbose m)
        ≤ head_pos m + Z.of_nat (Z.to_nat max_steps).
Proof.
  split; [apply step_growth|].
  intros max_steps verbose. unfold run_machine, run.
  generalize (Z.to_nat max_steps). intros n. revert m.
  induction n as [|n IH]; intros m; [simpl; lia|].
  rewrite run_loop_S.
  destruct (current_state m) as [s|].
  - destruct (decide (state_type s = ACCEPTING)); [simpl; lia|].
    destruct (decide (state_type s = REJECTING)); [simpl; lia|].
    pose proof (step_growth m) as [Hlen Hhead].
    specialize (IH (step m).2).
    destruct (step m) as [[[]|e] m1]; simpl in *; lia.
  - destruct verbose, (implicit_reject m); simpl; lia.
Qed.

(** ** State names *)

Lemma states_named_unique (target : string) (sts : list TMState) :
  NoDup (map name sts) → (length (states_named target sts) ≤ 1)%nat.
Proof.
  unfold states_named. induction sts as [|s sts IH]; [simpl; lia|].
  simpl. intros Hnd. apply NoDup_cons in Hnd as [Hnotin Hnd].
  rewrite filter_cons. destruct (decide (name s = target)) as [Heq|Hne].
  - simpl. destruct (filter (λ s0, name s0 = target) sts) as [|s1 l] eqn:Hf;
      [simpl; lia|].
    exfalso. apply Hnotin.
    assert (Hin : s1 ∈ filter (λ s0, name s0 = target) sts)
      by (rewrite Hf; left).
    apply list_elem_of_filter in Hin as [Hname Hin].
    rewrite Heq, <- Hname. apply list_elem_of_fmap. eauto.
  - apply IH, Hnd.
Qed.

(** X17.  The constructor does not check that state names are unique.  On
    a machine whose states do bear pairwise different names, the
    "Transition to a non-existent state" error of [step] means just that:
    the step matched one transition and no state of the machine has the
    name of its target. *)
Theorem unique_names_dangling_means_missing (m : TM) :
  NoDup (map name (states m)) →
  (step m).1 = Raise (TMError MSG_NO_STATE) →
  ∃ s c t,
    current_state m = Some s ∧ read_symbol m = Ok c ∧ triggered s c = [t]
    ∧ ∀ s', s' ∈ states m → name s' ≠ new_state t.
Proof.
  intros Hnd.
  destruct (step_step_case m)
    as [|s e _ _ Hraise| |s c t k Hcur Hread Htrig Hk Hbad|]; simpl;
    try discriminate.
  - intros [= ->]. apply py_getitem_Raise in Hraise as [[=] _].
  - intros _. exists s, c, t. repeat (split; [assumption|]).
    pose proof (states_named_unique (new_state t) (states m) Hnd) as Hle.
    intros s' Hin Hname.
    assert (Hin' : s' ∈ states_named (new_state t) (states m))
      by (apply list_elem_of_filter; auto).
    destruct (states_named (new_state t) (states m)) as [|s1 [|s2 l]];
      simpl in *; [|done|lia].
    apply elem_of_nil in Hin'. exact Hin'.
Qed.

(** [test_transition_to_nonexistent_state_error]: no state is named [X]. *)
Lemma unique_names_dangling_means_missing_witness :
  ∃ s c t,
    current_state (Tests.machine Tests.S_to_X []) = Some s
    ∧ read_symbol (Tests.machine Tests.S_to_X []) = Ok c
    ∧ triggered s c = [t]
    ∧ ∀ s', s' ∈ states (Tests.machine Tests.S_to_X []) → name s' ≠ new_state t.
Proof.
  apply unique_names_dangling_means_missing.
  - apply (bool_decide_unpack _). vm_compute. exact I.
  - vm_compute. reflexivity.
Defined.
